(** * WynnSource/schema: scripts/generate_mapping.py

    A shallow embedding of the mapping generator and the proofs of its
    specification.  The script turns the CSV tables of a mapping into a
    JSON document and enforces an append-only policy on the keys.

    Conventions of the embedding:
    - a Python [str] is a [string]; a character stands for a code point
      below 256 (code points above are outside the character type);
    - a Python [dict] whose order is observable (an entry, a record) is an
      association list with unique keys, kept in insertion order; a [dict]
      that is only looked up (a [csv.DictReader] row) is a [gmap];
    - a Python [set] is a [gset];
    - [sys.exit(1)] after a diagnostic and an uncaught exception both end
      the run: they are the [Err] results of an error monad, tagged with
      the error kind and the values the diagnostic prints. *)

From stdpp Require Import gmap strings list sorting pretty.
From Stdlib Require Import ZArith Ascii.

Local Open Scope string_scope.
Local Open Scope list_scope.

(** ** Errors and the error monad *)

(** Values stored in a generated record: the integer [id] and the string
    attributes. *)
Inductive scalar :=
  | SInt (n : Z)
  | SStr (s : string).

Global Instance scalar_eq_dec : EqDecision scalar.
Proof. solve_decision. Defined.

Global Instance scalar_countable : Countable scalar.
Proof.
  refine (inj_countable'
    (λ v, match v with SInt n => inl n | SStr s => inr s end)
    (λ x, match x with inl n => SInt n | inr s => SStr s end) _).
  by intros [].
Defined.

Inductive error :=
  | NoInputError (source_dir : string)
      (* "ERROR: no CSV files found in {source_dir}" *)
  | SchemaError (csv_file : string)
      (* "ERROR: {csv_file.name} is missing the required 'key' column header" *)
  | DuplicateKeyError (key csv_file : string)
      (* "ERROR: duplicate key '{key}' found in {csv_file.name}" *)
  | EmptySourceError (name : string)
      (* "ERROR ({name}): source CSV files contain no entries" *)
  | RemovedKeyError (name : string) (missing : list scalar)
      (* "ERROR ({name}): the following keys were removed ...: {sorted(missing)}" *)
  | ReorderedKeyError (name : string) (expected : nat)
      (* "ERROR ({name}): the order of existing keys ... has changed ...
         Expected the first {len(existing_keys)} keys to match ..." *)
  | AttributeError   (* uncaught: [None.strip()] *)
  | KeyError (k : string)   (* uncaught: [d[k]] on a dict without [k] *)
  | TypeError        (* uncaught: [sorted] on integers mixed with strings *)
  | JSONDecodeError. (* uncaught: [json.load] on a text that is no document *)

Global Instance error_eq_dec : EqDecision error.
Proof. solve_decision. Defined.

Inductive result (A : Type) :=
  | Ok (a : A)
  | Err (e : error).
Global Arguments Ok {A} a.
Global Arguments Err {A} e.

Global Instance result_eq_dec {A} `{EqDecision A} : EqDecision (result A).
Proof. solve_decision. Defined.

Global Instance result_ret : MRet result := λ A a, Ok a.
Global Instance result_bind : MBind result := λ A B f m,
  match m with Ok a => f a | Err e => Err e end.

Definition is_ok {A} (r : result A) : bool :=
  match r with Ok _ => true | Err _ => false end.

(** A loop [for x in l: ...] that updates local state and may exit. *)
Fixpoint foldM {A S} (body : S → A → result S) (s : S) (l : list A) : result S :=
  match l with
  | [] => Ok s
  | x :: l' => s' ← body s x; foldM body s' l'
  end.

(** ** Python strings *)

(** [str.isspace] on the code points below 256. *)
Definition isspace (c : ascii) : bool :=
  let n := nat_of_ascii c in
  (((9 <=? n) && (n <=? 13)) || ((28 <=? n) && (n <=? 32))
   || (n =? 133) || (n =? 160))%nat.

Fixpoint lstrip (s : string) : string :=
  match s with
  | "" => ""
  | String c s' => if isspace c then lstrip s' else s
  end.

Fixpoint rstrip (s : string) : string :=
  match s with
  | "" => ""
  | String c s' =>
      let r := rstrip s' in
      if isspace c && bool_decide (r = "") then "" else String c r
  end.

(** [s.strip()] *)
Definition strip (s : string) : string := rstrip (lstrip s).

(** [v.strip()] where [v] may be [None] (the [restval] of a short row). *)
Definition strip_opt (v : option string) : result string :=
  match v with
  | Some s => Ok (strip s)
  | None => Err AttributeError
  end.

(** ** Python dicts in insertion order *)

Abbreviation pydict V := (list (string * V)).

(** [d.get(k)] *)
Fixpoint dict_get {V} (k : string) (d : pydict V) : option V :=
  match d with
  | [] => None
  | (k', v) :: d' => if decide (k' = k) then Some v else dict_get k d'
  end.

(** [d[k] = v]: a key already present keeps its position. *)
Fixpoint dict_set {V} (k : string) (v : V) (d : pydict V) : pydict V :=
  match d with
  | [] => [(k, v)]
  | (k', v') :: d' =>
      if decide (k' = k) then (k, v) :: d' else (k', v') :: dict_set k v d'
  end.

(** [d[k]] *)
Definition dict_getitem {V} (d : pydict V) (k : string) : result V :=
  match dict_get k d with
  | Some v => Ok v
  | None => Err (KeyError k)
  end.

(** [list(d)] *)
Definition dict_keys {V} (d : pydict V) : list string := d.*1.

(** [a == b] on dicts: the same keys with equal values, in any order. *)
Definition dict_eqb {V} `{EqDecision V} (a b : pydict V) : bool :=
  forallb (λ k, bool_decide (dict_get k a = dict_get k b))
          (dict_keys a ++ dict_keys b).

(** [a == b] on lists of dicts. *)
Fixpoint list_dict_eqb {V} `{EqDecision V} (a b : list (pydict V)) : bool :=
  match a, b with
  | [], [] => true
  | x :: a', y :: b' => dict_eqb x y && list_dict_eqb a' b'
  | _, _ => false
  end.

(** ** Sorting a set of keys for the diagnostic *)

Definition is_int (v : scalar) : bool :=
  match v with SInt _ => true | SStr _ => false end.
Definition is_str (v : scalar) : bool :=
  match v with SStr _ => true | SInt _ => false end.

(** [a <= b] between two integers or two strings; Python refuses to
    compare an integer with a string, and [py_sorted] never asks. *)
Definition scalar_le (a b : scalar) : Prop :=
  match a, b with
  | SInt x, SInt y => (x ≤ y)%Z
  | SStr s, SStr t => String.le s t
  | SInt _, SStr _ => True
  | SStr _, SInt _ => False
  end.

Global Instance scalar_le_dec : RelDecision scalar_le.
Proof. intros [x|s] [y|t]; simpl; apply _. Defined.

(** [sorted(l)] *)
Definition py_sorted (l : list scalar) : result (list scalar) :=
  if forallb is_int l || forallb is_str l
  then Ok (merge_sort scalar_le l)
  else Err TypeError.

(** ** The append-only validator *)

(** [validate_append_only(existing_keys, new_keys, name)] *)
Definition validate_append_only
    (existing_keys new_keys : list scalar) (name : string) : result unit :=
  let missing : gset scalar :=
    list_to_set existing_keys ∖ list_to_set new_keys in
  if decide (missing ≠ ∅) then
    sorted_missing ← py_sorted (elements missing);
    Err (RemovedKeyError name sorted_missing)
  else
    let prefix := take (length existing_keys) new_keys in
    if decide (prefix ≠ existing_keys) then
      Err (ReorderedKeyError name (length existing_keys))
    else Ok ().

(** ** CSV tables *)

(** A CSV file: its name and the rows [csv.reader] yields for it, the
    header row first; a blank line yields the row [[]]. *)
Record csv_file := {
  csv_name : string;
  csv_rows : list (list string);
}.

(** A source directory: its path as [str(source_dir)] prints it, its name
    [source_dir.name], and [sorted(source_dir.glob("*.csv"))]. *)
Record source_dir := {
  dir_path : string;
  dir_name : string;
  dir_csv_files : list csv_file;
}.

(** A row of [csv.DictReader]: column name to field, [None] being the
    [restval] of a column the row is too short for.  The surplus fields of
    a long row go under the key [None], which no column name reaches. *)
Abbreviation csv_row := (gmap string (option string)).

(** [reader.fieldnames]: the first row, [None] for an empty file. *)
Definition DictReader_fieldnames (f : csv_file) : option (list string) :=
  head (csv_rows f).

(** [DictReader.__next__] on one row of the underlying reader. *)
Definition DictReader_next (fieldnames row : list string) : csv_row :=
  let d := foldl (λ d kv, <[kv.1 := Some kv.2]> d) ∅ (zip fieldnames row) in
  let lf := length fieldnames in
  let lr := length row in
  if decide (lf < lr) then d
  else if decide (lr < lf) then
    foldl (λ d key, <[key := None]> d) d (drop lr fieldnames)
  else d.

(** [for row in reader]: blank rows are not returned. *)
Definition DictReader_rows (f : csv_file) : list csv_row :=
  match csv_rows f with
  | [] => []
  | fieldnames :: rows =>
      DictReader_next fieldnames <$> filter (λ row, row ≠ []) rows
  end.

(** [row[col]] *)
Definition row_getitem (row : csv_row) (col : string) : result (option string) :=
  match row !! col with
  | Some v => Ok v
  | None => Err (KeyError col)
  end.

(** ** The entry reader *)

Definition IGNORED_COLUMNS : gset string := {[ "comment" ]}.

(** [{col.strip(): row[col].strip() for col in output_fields}] *)
Definition make_entry (output_fields : list string) (row : csv_row)
    : result (pydict string) :=
  foldM (λ entry col,
           v ← row_getitem row col ≫= strip_opt;
           Ok (dict_set (strip col) v entry))
        [] output_fields.

(** The body of [for row in reader]; the state is [(entries, seen_keys)]. *)
Definition read_row (csv_file_name : string) (output_fields : list string)
    (st : list (pydict string) * gset string) (row : csv_row)
    : result (list (pydict string) * gset string) :=
  let '(entries, seen_keys) := st in
  key ← row_getitem row "key" ≫= strip_opt;
  if decide (key = "") then Ok (entries, seen_keys)
  else if decide (key ∈ seen_keys) then
    Err (DuplicateKeyError key csv_file_name)
  else
    entry ← make_entry output_fields row;
    Ok (entries ++ [entry], {[ key ]} ∪ seen_keys).

(** The body of [for csv_file in csv_files]. *)
Definition read_csv_file (st : list (pydict string) * gset string)
    (f : csv_file) : result (list (pydict string) * gset string) :=
  match DictReader_fieldnames f with
  | None => Err (SchemaError (csv_name f))
  | Some fieldnames =>
      if decide ("key" ∉ fieldnames) then Err (SchemaError (csv_name f))
      else
        let output_fields :=
          filter (λ col, strip col ∉ IGNORED_COLUMNS) fieldnames in
        foldM (read_row (csv_name f) output_fields) st (DictReader_rows f)
  end.

(** [read_csv_entries(source_dir)] *)
Definition read_csv_entries (src : source_dir) : result (list (pydict string)) :=
  let csv_files := dir_csv_files src in
  if decide (csv_files = []) then Err (NoInputError (dir_path src))
  else
    st ← foldM read_csv_file ([], ∅) csv_files;
    Ok st.1.

(** ** The mapping document and its JSON text *)

(** A document has the three members the generator writes, and its records
    hold integers and strings; other JSON values are outside the type. *)
Record document := {
  doc_schema : string;               (* "$schema" *)
  doc_lastUpdated : string;          (* "lastUpdated" *)
  doc_data : list (pydict scalar);   (* "data" *)
}.

Global Instance document_eq_dec : EqDecision document.
Proof. solve_decision. Defined.

Definition chr (n : nat) : string := String (ascii_of_nat n) "".
Definition dquote : string := chr 34.
Definition backslash : string := chr 92.
Definition newline : string := chr 10.

Definition hex_digit (n : nat) : string :=
  nth n ["0"; "1"; "2"; "3"; "4"; "5"; "6"; "7";
         "8"; "9"; "a"; "b"; "c"; "d"; "e"; "f"] "0".

(** [ESCAPE_DCT]: the replacement of one character inside a JSON string
    when [ensure_ascii] is off. *)
Definition json_escape (c : ascii) : string :=
  let n := nat_of_ascii c in
  if (n =? 34)%nat then backslash +:+ dquote
  else if (n =? 92)%nat then backslash +:+ backslash
  else if (n =? 8)%nat then backslash +:+ "b"
  else if (n =? 12)%nat then backslash +:+ "f"
  else if (n =? 10)%nat then backslash +:+ "n"
  else if (n =? 13)%nat then backslash +:+ "r"
  else if (n =? 9)%nat then backslash +:+ "t"
  else if (n <? 32)%nat then
    backslash +:+ "u00" +:+ hex_digit (n / 16) +:+ hex_digit (n mod 16)
  else String c "".

Fixpoint json_escape_all (s : string) : string :=
  match s with
  | "" => ""
  | String c s' => json_escape c +:+ json_escape_all s'
  end.

(** [encode_basestring(s)] *)
Definition encode_basestring (s : string) : string :=
  dquote +:+ json_escape_all s +:+ dquote.

Definition encode_scalar (v : scalar) : string :=
  match v with
  | SInt n => pretty n
  | SStr s => encode_basestring s
  end.

Fixpoint spaces (n : nat) : string :=
  match n with O => "" | S n' => String " " (spaces n') end.

(** ['\n' + _indent * level] with [indent=2] *)
Definition newline_indent (level : nat) : string :=
  newline +:+ spaces (2 * level).

(** The chunks of [_iterencode_dict] for a record at the given level. *)
Fixpoint iterencode_items (item_separator : string) (first : bool)
    (items : pydict scalar) : list string :=
  match items with
  | [] => []
  | (key, value) :: items' =>
      (if first then [] else [item_separator])
      ++ [encode_basestring key; ": "; encode_scalar value]
      ++ iterencode_items item_separator false items'
  end.

Definition iterencode_record (level : nat) (dct : pydict scalar) : list string :=
  match dct with
  | [] => ["{}"]
  | _ =>
      ["{"; newline_indent (S level)]
      ++ iterencode_items ("," +:+ newline_indent (S level)) true dct
      ++ [newline_indent level; "}"]
  end.

(** The chunks of [_iterencode_list] for the data array. *)
Fixpoint iterencode_values (level : nat) (buf : string)
    (lst : list (pydict scalar)) : list string :=
  match lst with
  | [] => []
  | value :: lst' =>
      buf :: iterencode_record level value
      ++ iterencode_values level ("," +:+ newline_indent level) lst'
  end.

Definition iterencode_data (level : nat) (lst : list (pydict scalar)) : list string :=
  match lst with
  | [] => ["[]"]
  | _ =>
      iterencode_values (S level) ("[" +:+ newline_indent (S level)) lst
      ++ [newline_indent level; "]"]
  end.

(** The chunks [json.dump(obj, f, indent=2, ensure_ascii=False)] hands to
    [f.write], for [obj = {"$schema": .., "lastUpdated": .., "data": ..}]. *)
Definition iterencode (obj : document) : list string :=
  ["{"; newline_indent 1;
   encode_basestring "$schema"; ": "; encode_basestring (doc_schema obj);
   "," +:+ newline_indent 1;
   encode_basestring "lastUpdated"; ": "; encode_basestring (doc_lastUpdated obj);
   "," +:+ newline_indent 1;
   encode_basestring "data"; ": "]
  ++ iterencode_data 1 (doc_data obj)
  ++ [newline_indent 0; "}"].

Fixpoint concat_chunks (chunks : list string) : string :=
  match chunks with
  | [] => ""
  | c :: chunks' => c +:+ concat_chunks chunks'
  end.

(** The text of a completely written document. *)
Definition json_text (obj : document) : string :=
  concat_chunks (iterencode obj) +:+ newline.

(** ** Writing the output file *)

(** The output file is its text, [None] while the path does not exist. *)
Abbreviation file := (option string).

Inductive file_op :=
  | OpenTruncate            (* [open(path, "w", ...)] *)
  | WriteChunk (s : string). (* [f.write(s)] *)

Definition apply_op (content : file) (op : file_op) : file :=
  match op with
  | OpenTruncate => Some ""
  | WriteChunk s => (λ text, text +:+ s) <$> content
  end.

(** The file operations of [write_json(path, obj)], in order. *)
Definition write_json_ops (obj : document) : list file_op :=
  OpenTruncate :: (WriteChunk <$> iterencode obj) ++ [WriteChunk newline].

(** [write_json] stopped by a failure after its first [n] operations; the
    [with] block closes the file, so what was written stays. *)
Definition write_json_interrupted (n : nat) (obj : document) (content : file) : file :=
  foldl apply_op content (take n (write_json_ops obj)).

(** [write_json(path, obj)] running to its end. *)
Definition write_json (obj : document) (content : file) : file :=
  foldl apply_op content (write_json_ops obj).

(** ** Generation *)

Inductive report :=
  | NoChanges (name : string)           (* "{name}: no changes, skipping write" *)
  | Wrote (name : string) (count : nat). (* "{name}: wrote {count} entries -> ..." *)

Global Instance report_eq_dec : EqDecision report.
Proof. solve_decision. Defined.

(** [{"id": i, **entry}] *)
Definition with_id (i : nat) (entry : pydict string) : pydict scalar :=
  foldl (λ d kv, dict_set kv.1 (SStr kv.2) d) [("id", SInt (Z.of_nat i))] entry.

(** [[{"id": i, **entry} for i, entry in enumerate(entries)]] *)
Definition assign_ids (entries : list (pydict string)) : list (pydict scalar) :=
  imap with_id entries.

(** [[e["key"] for e in l]] *)
Definition keys_of {V} (l : list (pydict V)) : result (list V) :=
  mapM (λ e, dict_getitem e "key") l.

Section generation.
(** [json.load] on the text of a file is the library's parser. *)
Variable json_load : string → result document.

(** [read_existing_json(path)] *)
Definition read_existing_json (content : file) : result (option document) :=
  match content with
  | None => Ok None
  | Some text => doc ← json_load text; Ok (Some doc)
  end.

(** [generate_mapping(source_dir, output_path, schema_ref)]: [output] is
    the content of [output_path] before the run and [now] the value of
    [now_iso()]; the result holds the content after the run. *)
Definition generate_mapping (src : source_dir) (output : file)
    (schema_ref now : string) : result (file * report) :=
  let name := dir_name src in
  entries ← read_csv_entries src;
  if decide (entries = []) then Err (EmptySourceError name)
  else
    keys ← keys_of entries;
    existing ← read_existing_json output;
    _ ← match existing with
        | Some doc =>
            existing_keys ← keys_of (doc_data doc);
            validate_append_only existing_keys (SStr <$> keys) name
        | None => Ok ()
        end;
    let new_data := assign_ids entries in
    if match existing with
       | Some doc => list_dict_eqb (doc_data doc) new_data
       | None => false
       end
    then Ok (output, NoChanges name)
    else
      let obj := {| doc_schema := schema_ref;
                    doc_lastUpdated := now;
                    doc_data := new_data |} in
      Ok (write_json obj output, Wrote name (length new_data)).
End generation.

(** ** The clock *)

(** An aware [datetime] in UTC, as [datetime.now(timezone.utc)] returns
    it; the class keeps every field in its range (the month below 13, the
    year below 10000, ...). *)
Record datetime := {
  dt_year : nat;
  dt_month : nat;
  dt_day : nat;
  dt_hour : nat;
  dt_minute : nat;
  dt_second : nat;
  dt_microsecond : nat;
}.

Definition digit (n : nat) : string :=
  nth n ["0"; "1"; "2"; "3"; "4"; "5"; "6"; "7"; "8"; "9"] "0".

(** ["%02d" % n] for [n] below 100 *)
Definition two_digits (n : nat) : string :=
  digit (n / 10 mod 10) +:+ digit (n mod 10).

(** ["%04d" % n] for [n] below 10000 *)
Definition four_digits (n : nat) : string :=
  two_digits (n / 100) +:+ two_digits (n mod 100).

(** ["%06d" % n] for [n] below 1000000 *)
Definition six_digits (n : nat) : string :=
  two_digits (n / 10000) +:+ four_digits (n mod 10000).

(** [dt.replace(microsecond=0)] *)
Definition replace_microsecond_0 (dt : datetime) : datetime :=
  {| dt_year := dt_year dt; dt_month := dt_month dt; dt_day := dt_day dt;
     dt_hour := dt_hour dt; dt_minute := dt_minute dt;
     dt_second := dt_second dt; dt_microsecond := 0 |}.

(** [dt.isoformat()] for a UTC [dt]: the fraction is printed only when the
    microseconds are not zero, and the offset of UTC is [+00:00]. *)
Definition isoformat (dt : datetime) : string :=
  four_digits (dt_year dt) +:+ "-" +:+ two_digits (dt_month dt) +:+ "-"
  +:+ two_digits (dt_day dt) +:+ "T" +:+ two_digits (dt_hour dt) +:+ ":"
  +:+ two_digits (dt_minute dt) +:+ ":" +:+ two_digits (dt_second dt)
  +:+ (if (dt_microsecond dt =? 0)%nat then ""
       else "." +:+ six_digits (dt_microsecond dt))
  +:+ "+00:00".

(** [s.replace(old, new)] for a non-empty [old]: the occurrences are
    replaced from the left and do not overlap; [skip] counts the
    characters of the occurrence under way that are still to be passed. *)
Fixpoint str_replace_from (old new : string) (skip : nat) (s : string) : string :=
  match s with
  | "" => ""
  | String c s' =>
      match skip with
      | S skip' => str_replace_from old new skip' s'
      | O =>
          if String.prefix old s
          then new +:+ str_replace_from old new (String.length old - 1) s'
          else String c (str_replace_from old new 0 s')
      end
  end.

Definition str_replace (old new s : string) : string :=
  str_replace_from old new 0 s.

(** [now_iso()], from the reading [now] of the clock *)
Definition now_iso (now : datetime) : string :=
  str_replace "+00:00" "Z" (isoformat (replace_microsecond_0 now)).

(** ** Main *)

(** Paths are written relative to [REPO_ROOT]. *)
Definition MAPPING_DIR : string := "mapping".

(** Each entry: [(source_directory, output_json, schema_ref)] *)
Definition MAPPINGS : list (string * string * string) :=
  [ (MAPPING_DIR +:+ "/identification",
     MAPPING_DIR +:+ "/identification.json",
     "./identification.schema.json");
    (MAPPING_DIR +:+ "/shiny",
     MAPPING_DIR +:+ "/shiny.json",
     "./shiny.schema.json") ].

(** [path.name]: what follows the last [/]. *)
Fixpoint path_name_from (name path : string) : string :=
  match path with
  | "" => name
  | String c path' =>
      if decide (c = "/"%char) then path_name_from path' path'
      else path_name_from name path'
  end.

Definition path_name (path : string) : string := path_name_from path path.

(** The directories of the repository: path to
    [sorted(path.glob("*.csv"))]; a path that is no directory has no CSV
    files. *)
Definition source_at (dirs : gmap string (list csv_file)) (path : string)
    : source_dir :=
  {| dir_path := path;
     dir_name := path_name path;
     dir_csv_files := default [] (dirs !! path) |}.

(** The files of the repository, path to text, with the content of one
    path replaced. *)
Definition set_content (path : string) (content : file)
    (fs : gmap string string) : gmap string string :=
  match content with
  | Some text => <[path := text]> fs
  | None => delete path fs
  end.

Section main.
Variable json_load : string → result document.
Variable dirs : gmap string (list csv_file).
(** The reading of the clock while the mapping number [n] is generated. *)
Variable clock : nat → datetime.

(** [for source_dir, output_path, schema_ref in mappings: generate_mapping(..)]
    from the mapping number [n] on; [sys.exit] ends the loop and leaves the
    files as the earlier mappings wrote them. *)
Fixpoint run_mappings (n : nat) (mappings : list (string * string * string))
    (fs : gmap string string) : gmap string string * result (list report) :=
  match mappings with
  | [] => (fs, Ok [])
  | (source_path, output_path, schema_ref) :: mappings' =>
      match generate_mapping json_load (source_at dirs source_path)
              (fs !! output_path) schema_ref (now_iso (clock n)) with
      | Err e => (fs, Err e)
      | Ok (content, r) =>
          let '(fs', rs) :=
            run_mappings (S n) mappings' (set_content output_path content fs) in
          (fs', match rs with Ok l => Ok (r :: l) | Err e => Err e end)
      end
  end.

(** [main()] *)
Definition main (fs : gmap string string)
    : gmap string string * result (list report) :=
  run_mappings 0 MAPPINGS fs.
End main.

(** ** Notions used by the specification *)

(** The distinct elements of a list, each at its first occurrence: the
    order in which a dict holds keys inserted in the order of the list. *)
Fixpoint first_occurrences (l : list string) : list string :=
  match l with
  | [] => []
  | x :: l' => x :: filter (λ y, y ≠ x) (first_occurrences l')
  end.

(** The columns a table with the given header carries into its entries. *)
Definition output_columns (fieldnames : list string) : list string :=
  first_occurrences
    (strip <$> filter (λ col, strip col ∉ IGNORED_COLUMNS) fieldnames).

(** The key of a data row: [row["key"].strip()]. *)
Definition row_key (row : csv_row) : result string :=
  row_getitem row "key" ≫= strip_opt.

(** The key of a data row that is not skipped. *)
Definition nonempty_key (row : csv_row) : option string :=
  match row_key row with
  | Ok key => if decide (key = "") then None else Some key
  | Err _ => None
  end.

(** The non-empty trimmed keys of the data rows of a file, in row order. *)
Definition data_keys (f : csv_file) : list string :=
  omap nonempty_key (DictReader_rows f).

(** The non-empty trimmed keys of a source, file after file. *)
Definition source_keys (src : source_dir) : list string :=
  dir_csv_files src ≫= data_keys.

(** The entry [e] was read from a row with the key [key], in a table with
    a [key] column. *)
Definition entry_of_key (files : list csv_file) (e : pydict string)
    (key : string) : Prop :=
  ∃ f fieldnames row,
    f ∈ files ∧ DictReader_fieldnames f = Some fieldnames
    ∧ "key" ∈ fieldnames ∧ row ∈ DictReader_rows f
    ∧ nonempty_key row = Some key
    ∧ make_entry (filter (λ col, strip col ∉ IGNORED_COLUMNS) fieldnames) row
      = Ok e.

(** The same non-empty trimmed key occurs in two data rows. *)
Definition duplicated_key (src : source_dir) : Prop :=
  ∃ (i j : nat) (key : string),
    i < j ∧ source_keys src !! i = Some key ∧ source_keys src !! j = Some key.

(** A table with a [key] header whose rows (blank lines apart) have a
    field for every column of the header. *)
Definition complete_table (f : csv_file) : bool :=
  match csv_rows f with
  | [] => false
  | fieldnames :: rows =>
      bool_decide ("key" ∈ fieldnames)
      && forallb (λ row, bool_decide (row = [])
                         || (length fieldnames <=? length row)%nat) rows
  end.

(** A row of the underlying reader whose key field is empty after
    trimming. *)
Definition empty_key_row (fieldnames row : list string) : bool :=
  bool_decide (row_key (DictReader_next fieldnames row) = Ok "").

(** The file without its empty-key rows. *)
Definition drop_empty_key_rows (f : csv_file) : csv_file :=
  match csv_rows f with
  | [] => f
  | fieldnames :: rows =>
      {| csv_name := csv_name f;
         csv_rows :=
           fieldnames :: filter (λ row, empty_key_row fieldnames row = false) rows |}
  end.

(** The value an attribute has in a record of a data array. *)
Definition attribute (data : list (pydict scalar)) (i : nat) (k : string)
    : option scalar :=
  data !! i ≫= dict_get k.

(** The run ends well or on a duplicate key. *)
Definition ok_or_duplicate {A} (r : result A) : Prop :=
  match r with
  | Ok _ | Err (DuplicateKeyError _ _) => True
  | Err _ => False
  end.

(** The text [write_json] leaves for [obj] reads back as [obj]. *)
Definition reads_back (json_load : string → result document)
    (obj : document) : Prop :=
  json_load (json_text obj) = Ok obj.

(** No surrounding whitespace: what [strip] leaves. *)
Definition trimmed (s : string) : Prop :=
  (∀ c t, s = String c t → isspace c = false)
  ∧ (∀ t c, s = t +:+ String c "" → isspace c = false).

(** [key] is the only column of the header whose trimmed name is [key]. *)
Definition key_column_only (fieldnames : list string) : Prop :=
  ∀ col, col ∈ fieldnames → strip col = "key" → col = "key".

(** The header of every table of the source satisfies [P]. *)
Definition headers (P : list string → Prop) (src : source_dir) : Prop :=
  ∀ f fieldnames,
    f ∈ dir_csv_files src → DictReader_fieldnames f = Some fieldnames →
    P fieldnames.

(** The output paths of a list of mappings. *)
Definition output_paths (mappings : list (string * string * string))
    : list string :=
  (λ m, m.1.2) <$> mappings.

(** ** Sample inputs *)

(** A table without a [key] column, then a table that repeats a key. *)
Definition src_schema_then_duplicate : source_dir :=
  {| dir_path := "mapping/shiny";
     dir_name := "shiny";
     dir_csv_files :=
       [ {| csv_name := "a.csv"; csv_rows := [["name"]; ["x"]] |};
         {| csv_name := "b.csv"; csv_rows := [["key"]; ["k"]; ["k"]] |} ] |}.

(** A key repeated across two tables, with different display names. *)
Definition src_duplicate_across_files : source_dir :=
  {| dir_path := "mapping/shiny";
     dir_name := "shiny";
     dir_csv_files :=
       [ {| csv_name := "a.csv";
            csv_rows := [["key"; "displayName"]; ["k"; "one"]] |};
         {| csv_name := "b.csv";
            csv_rows := [["key"; "displayName"]; ["j"; "two"]; [" k "; "three"]] |} ] |}.

(** The table of the specification's example, with a comment column. *)
Definition src_with_comments : source_dir :=
  {| dir_path := "mapping/identification";
     dir_name := "identification";
     dir_csv_files :=
       [ {| csv_name := "a.csv";
            csv_rows := [["key"; "displayName"; "comment"];
                         ["walkSpeed"; "Walk Speed"; "percent"];
                         [];
                         ["  "; "skipped"; ""];
                         ["rawStrength"; " Strength "; ""]] |} ] |}.

(** A parser that knows the texts of the given documents. *)
Definition json_load_of (docs : list document) (text : string)
    : result document :=
  match list_find (λ doc, json_text doc = text) docs with
  | Some (_, doc) => Ok doc
  | None => Err JSONDecodeError
  end.

(** A table with the single key [a]. *)
Definition src_single_key : source_dir :=
  {| dir_path := "mapping/shiny";
     dir_name := "shiny";
     dir_csv_files := [ {| csv_name := "a.csv"; csv_rows := [["key"]; ["a"]] |} ] |}.

(** A table with a column named [id]. *)
Definition src_with_id_column : source_dir :=
  {| dir_path := "mapping/shiny";
     dir_name := "shiny";
     dir_csv_files :=
       [ {| csv_name := "a.csv"; csv_rows := [["key"; "id"]; ["a"; "7"]] |} ] |}.

(** A document for the key [a] with the given [id]. *)
Definition doc_single_key (id : Z) : document :=
  {| doc_schema := "./shiny.schema.json";
     doc_lastUpdated := "2025-01-01T00:00:00Z";
     doc_data := [ [("id", SInt id); ("key", SStr "a")] ] |}.

(** The document generated from [src_with_comments]. *)
Definition doc_identification (now : string) : document :=
  {| doc_schema := "./identification.schema.json";
     doc_lastUpdated := now;
     doc_data :=
       [ [("id", SInt 0); ("key", SStr "walkSpeed");
          ("displayName", SStr "Walk Speed")];
         [("id", SInt 1); ("key", SStr "rawStrength");
          ("displayName", SStr "Strength")] ] |}.

(** The two source directories of the repository, in small. *)
Definition sample_dirs : gmap string (list csv_file) :=
  {[ "mapping/identification" := dir_csv_files src_with_comments;
     "mapping/shiny" := dir_csv_files src_single_key ]}.

Definition sample_clock (n : nat) : datetime :=
  {| dt_year := 2026; dt_month := 1; dt_day := 1; dt_hour := 0;
     dt_minute := 0; dt_second := n; dt_microsecond := 250 |}.

(** The document generated from [src_single_key]. *)
Definition doc_shiny (now : string) : document :=
  {| doc_schema := "./shiny.schema.json";
     doc_lastUpdated := now;
     doc_data := [ [("id", SInt 0); ("key", SStr "a")] ] |}.

(** The files before and after a run of [main] over [sample_dirs] that
    finds the first output up to date and the second missing. *)
Definition sample_files_before : gmap string string :=
  {[ "mapping/identification.json" :=
       json_text (doc_identification "2025-01-01T00:00:00Z") ]}.

Definition sample_files_after : gmap string string :=
  {[ "mapping/identification.json" :=
       json_text (doc_identification "2025-01-01T00:00:00Z");
     "mapping/shiny.json" := json_text (doc_shiny "2026-01-01T00:00:01Z") ]}.

(** * Properties *)

(** ** The error monad *)

Lemma bind_Ok {A B} (m : result A) (f : A → result B) (b : B) :
  m ≫= f = Ok b ↔ ∃ a, m = Ok a ∧ f a = Ok b.
Proof.
  destruct m as [a|e]; simpl; split.
  - eauto.
  - by intros (a' & [= <-] & ?).
  - done.
  - by intros (a' & ? & ?).
Qed.

(** ** Sorting the missing keys *)

Global Instance scalar_le_total : Total scalar_le.
Proof.
  intros [x|s] [y|t]; simpl; try tauto.
  - lia.
  - apply String.le_total.
Qed.

Lemma py_sorted_Ok (l l' : list scalar) :
  py_sorted l = Ok l' → l' ≡ₚ l ∧ Sorted scalar_le l'.
Proof.
  unfold py_sorted. case_match; [|done]. intros [= <-]. split.
  - apply merge_sort_Permutation.
  - apply (Sorted_merge_sort _).
Qed.

Lemma py_sorted_strings (l : list scalar) :
  Forall (λ v, is_str v = true) l → ∃ l', py_sorted l = Ok l'.
Proof.
  intros Hl. unfold py_sorted.
  assert (forallb is_str l = true) as ->.
  { apply forallb_forall. intros v Hv%list_elem_of_In.
    by eapply Forall_forall in Hl. }
  rewrite orb_true_r. eauto.
Qed.

(** ** The append-only validator *)

Lemma missing_empty_iff (existing_keys new_keys : list scalar) :
  list_to_set existing_keys ∖ list_to_set new_keys = (∅ : gset scalar)
  ↔ ∀ k, k ∈ existing_keys → k ∈ new_keys.
Proof.
  split.
  - intros Hempty k Hk. destruct (decide (k ∈ new_keys)) as [|Hnew]; [done|].
    assert (k ∈ (list_to_set existing_keys ∖ list_to_set new_keys : gset scalar))
      as Hin by set_solver.
    rewrite Hempty in Hin. set_solver.
  - intros Hsub. apply set_eq. intros k.
    rewrite elem_of_difference, !elem_of_list_to_set.
    split; [intros [? ?]; exfalso; eauto | set_solver].
Qed.

Lemma take_prefix_elem_of {A} (l1 l2 : list A) :
  take (length l1) l2 = l1 → ∀ k, k ∈ l1 → k ∈ l2.
Proof.
  intros Htake k Hk. rewrite <- Htake in Hk.
  by eapply subseteq_take.
Qed.

Global Instance SStr_inj : Inj (=) (=) SStr.
Proof. by intros s t [= ->]. Qed.

Lemma fmap_SStr_take (n : nat) (l1 l2 : list string) :
  take n (SStr <$> l2) = SStr <$> l1 ↔ take n l2 = l1.
Proof.
  rewrite <- fmap_take. split; [|by intros ->].
  apply (inj (fmap SStr)).
Qed.

(** C1: on lists of string keys the validator accepts exactly when the first
    [len(existing_keys)] elements of [new_keys] are [existing_keys]; when an
    existing key occurs nowhere in [new_keys] it fails with
    [RemovedKeyError]; when every existing key occurs but the prefix differs
    it fails with [ReorderedKeyError]. *)
Theorem validate_append_only_decision
    (existing_keys new_keys : list string) (name : string) :
  let run :=
    validate_append_only (SStr <$> existing_keys) (SStr <$> new_keys) name in
  (run = Ok () ↔ take (length existing_keys) new_keys = existing_keys)
  ∧ ((∃ k, k ∈ existing_keys ∧ k ∉ new_keys) →
     ∃ missing, run = Err (RemovedKeyError name missing))
  ∧ ((∀ k, k ∈ existing_keys → k ∈ new_keys) →
     take (length existing_keys) new_keys ≠ existing_keys →
     run = Err (ReorderedKeyError name (length existing_keys))).
Proof.
  intros run. subst run. unfold validate_append_only.
  set (missing := list_to_set (SStr <$> existing_keys)
                  ∖ list_to_set (SStr <$> new_keys) : gset scalar).
  assert (∃ l, py_sorted (elements missing) = Ok l) as [l Hsorted].
  { apply py_sorted_strings, Forall_forall. intros v Hv.
    apply elem_of_elements in Hv.
    assert (v ∈ SStr <$> existing_keys) as Hin by set_solver.
    by apply list_elem_of_fmap in Hin as (s & -> & _). }
  assert (missing = ∅ ↔ ∀ k, k ∈ existing_keys → k ∈ new_keys) as Hmissing.
  { unfold missing. rewrite missing_empty_iff. split.
    - intros Hsub k Hk.
      specialize (Hsub (SStr k)). rewrite !list_elem_of_fmap in Hsub.
      destruct Hsub as (k' & [= ->] & ?); eauto.
    - intros Hsub v (k & -> & Hk)%list_elem_of_fmap.
      apply list_elem_of_fmap. eauto. }
  rewrite length_fmap, Hsorted. simpl.
  repeat split.
  - destruct (decide (missing ≠ ∅)); [done|].
    destruct (decide (_ ≠ _)) as [|Heq]; [done|]. intros _.
    apply dec_stable in Heq. by apply fmap_SStr_take in Heq.
  - intros Htake.
    assert (missing = ∅) as Hempty.
    { apply Hmissing. by apply take_prefix_elem_of. }
    rewrite decide_False by (by intros ?).
    rewrite decide_False; [done|]. intros Hne. apply Hne.
    by apply fmap_SStr_take.
  - intros (k & Hk & Hnew). rewrite decide_True; [eauto|].
    intros Hempty. apply Hnew. by apply Hmissing.
  - intros Hall Hprefix.
    rewrite decide_False by (intros Hne; by apply Hne, Hmissing).
    rewrite decide_True; [done|]. by rewrite fmap_SStr_take.
Qed.

(** C7: the keys a [RemovedKeyError] reports are exactly the existing keys
    that are absent from the new key list, each once and in sorted order. *)
Theorem removed_key_error_reports_all
    (existing_keys new_keys : list scalar) (name name' : string)
    (missing : list scalar) :
  validate_append_only existing_keys new_keys name
    = Err (RemovedKeyError name' missing) →
  (∀ k, k ∈ missing ↔ k ∈ existing_keys ∧ k ∉ new_keys)
  ∧ NoDup missing ∧ Sorted scalar_le missing.
Proof.
  unfold validate_append_only. intros Hrun.
  case_decide; [|by case_decide].
  destruct (py_sorted _) as [l|e] eqn:Hsorted; simpl in Hrun; last first.
  { unfold py_sorted in Hsorted. case_match; congruence. }
  injection Hrun as _ <-.
  apply py_sorted_Ok in Hsorted as [Hperm Hsort].
  split; [|split; [|done]].
  - intros k. rewrite Hperm, elem_of_elements. set_solver.
  - rewrite Hperm. apply NoDup_elements.
Qed.

Lemma removed_key_error_reports_all_witness :
  (∀ k, k ∈ [SStr "b"; SStr "c"]
        ↔ k ∈ SStr <$> ["a"; "b"; "c"] ∧ k ∉ SStr <$> ["a"])
  ∧ NoDup [SStr "b"; SStr "c"] ∧ Sorted scalar_le [SStr "b"; SStr "c"].
Proof.
  apply (removed_key_error_reports_all _ _ "shiny" "shiny").
  vm_compute. reflexivity.
Defined.

(** The examples of the specification. *)
Example append_accepted :
  validate_append_only (SStr <$> ["a"; "b"; "c"])
    (SStr <$> ["a"; "b"; "c"; "d"]) "shiny" = Ok ().
Proof. vm_compute. reflexivity. Qed.

Example reorder_rejected :
  validate_append_only (SStr <$> ["a"; "b"; "c"])
    (SStr <$> ["a"; "c"; "b"]) "shiny" = Err (ReorderedKeyError "shiny" 3).
Proof. vm_compute. reflexivity. Qed.

Example removal_rejected :
  validate_append_only (SStr <$> ["a"; "b"; "c"])
    (SStr <$> ["a"; "c"]) "shiny" = Err (RemovedKeyError "shiny" [SStr "b"]).
Proof. vm_compute. reflexivity. Qed.

(** ** Dicts *)

Section dict.
Context {V : Type}.
Implicit Types (d : pydict V) (k : string) (v : V).

Lemma dict_get_set k k' v d :
  dict_get k' (dict_set k v d)
  = if decide (k = k') then Some v else dict_get k' d.
Proof.
  induction d as [|[k0 v0] d IH]; simpl.
  - by destruct (decide (k = k')).
  - destruct (decide (k0 = k)) as [->|Hne]; simpl.
    + by destruct (decide (k = k')).
    + rewrite IH. destruct (decide (k0 = k')) as [->|]; [|done].
      by rewrite decide_False by done.
Qed.

Lemma dict_get_is_Some k d : is_Some (dict_get k d) ↔ k ∈ dict_keys d.
Proof.
  unfold dict_keys. induction d as [|[k0 v0] d IH]; simpl.
  - rewrite elem_of_nil. split; [by intros [? ?]|done].
  - rewrite elem_of_cons. destruct (decide (k0 = k)) as [->|Hne].
    + split; [by left|eauto].
    + rewrite IH. split; [by right|]. intros [?|?]; [congruence|done].
Qed.

Lemma dict_get_None k d : dict_get k d = None ↔ k ∉ dict_keys d.
Proof. rewrite <- dict_get_is_Some, eq_None_not_Some. done. Qed.

Lemma dict_keys_set k v d :
  dict_keys (dict_set k v d)
  = if decide (k ∈ dict_keys d) then dict_keys d else dict_keys d ++ [k].
Proof.
  unfold dict_keys. induction d as [|[k0 v0] d IH].
  - rewrite decide_False; [done|]. apply not_elem_of_nil.
  - cbn [dict_set]. rewrite (fmap_cons fst (k0, v0) d). cbn [fst].
    destruct (decide (k0 = k)) as [->|Hne].
    + rewrite decide_True; [done|]. by left.
    + rewrite fmap_cons, IH. cbn [fst].
      destruct (decide (k ∈ d.*1)) as [Hin|Hnin].
      * rewrite decide_True; [done|]. by right.
      * rewrite decide_False; [done|].
        intros Hin. apply elem_of_cons in Hin. naive_solver.
Qed.

Context `{!EqDecision V}.

Lemma dict_eqb_true (a b : pydict V) :
  dict_eqb a b = true ↔ ∀ k, dict_get k a = dict_get k b.
Proof.
  unfold dict_eqb. rewrite forallb_forall. split.
  - intros Hall k.
    destruct (decide (k ∈ dict_keys a ++ dict_keys b)) as [Hin|Hnin].
    + apply list_elem_of_In, Hall in Hin. by apply bool_decide_eq_true in Hin.
    + rewrite elem_of_app in Hnin.
      assert (dict_get k a = None) as -> by (apply dict_get_None; tauto).
      symmetry. apply dict_get_None. tauto.
  - intros Heq k _. by apply bool_decide_eq_true.
Qed.

Lemma list_dict_eqb_true (a b : list (pydict V)) :
  list_dict_eqb a b = true
  ↔ Forall2 (λ x y, ∀ k, dict_get k x = dict_get k y) a b.
Proof.
  revert b. induction a as [|x a IH]; intros [|y b]; simpl.
  - split; [constructor|done].
  - split; [done|intros H; inversion H].
  - split; [done|intros H; inversion H].
  - rewrite andb_true_iff, dict_eqb_true, IH. split.
    + intros [? ?]. by constructor.
    + intros H. by inversion H.
Qed.

Lemma list_dict_eqb_refl (a : list (pydict V)) : list_dict_eqb a a = true.
Proof. apply list_dict_eqb_true, Forall2_same_length_lookup_2; naive_solver. Qed.
End dict.

(** ** The order of the columns *)

Lemma elem_of_first_occurrences (x : string) (l : list string) :
  x ∈ first_occurrences l ↔ x ∈ l.
Proof.
  induction l as [|y l IH]; simpl; [done|].
  rewrite !elem_of_cons, list_elem_of_filter, IH.
  destruct (decide (x = y)); naive_solver.
Qed.

Lemma NoDup_first_occurrences (l : list string) : NoDup (first_occurrences l).
Proof.
  induction l as [|y l IH]; simpl; constructor.
  - rewrite list_elem_of_filter. naive_solver.
  - by apply NoDup_filter.
Qed.

Lemma filter_all {A} (P : A → Prop) `{!∀ x, Decision (P x)} (l : list A) :
  Forall P l → filter P l = l.
Proof.
  induction 1 as [|x l Hx Hl IH]; [done|].
  by rewrite filter_cons_True, IH.
Qed.

Lemma first_occurrences_NoDup (l : list string) :
  NoDup l → first_occurrences l = l.
Proof.
  induction 1 as [|x l Hx Hl IH]; simpl; [done|]. f_equal.
  rewrite IH. apply filter_all, Forall_forall. intros y Hy ->. done.
Qed.

Lemma filter_filter_ne (P : string → Prop) `{!∀ x, Decision (P x)}
    (x : string) (l : list string) :
  ¬ P x → filter P (filter (λ y, y ≠ x) l) = filter P l.
Proof.
  intros Hx. apply list_filter_filter_l. by intros y Hy ->.
Qed.

(** Inserting the keys [ks] one after the other into a dict whose keys are
    [ks0] leaves the keys [ks0] followed by the new ones. *)
Lemma keys_after_inserts (ks0 ks : list string) (x : string) :
  (if decide (x ∈ ks0) then ks0 else ks0 ++ [x])
  ++ filter (λ y, y ∉ (if decide (x ∈ ks0) then ks0 else ks0 ++ [x]))
            (first_occurrences ks)
  = ks0 ++ filter (λ y, y ∉ ks0) (first_occurrences (x :: ks)).
Proof.
  simpl. destruct (decide (x ∈ ks0)) as [Hin|Hnin].
  - rewrite filter_cons_False by naive_solver.
    by rewrite filter_filter_ne by naive_solver.
  - rewrite filter_cons_True by done. rewrite <- app_assoc. simpl.
    do 2 f_equal. rewrite !list_filter_filter. apply list_filter_iff.
    intros y. rewrite elem_of_app, list_elem_of_singleton. naive_solver.
Qed.

(** ** The entry reader *)

Lemma make_entry_fold_keys (row : csv_row) (cols : list string)
    (acc e : pydict string) :
  foldM (λ entry col,
           v ← row_getitem row col ≫= strip_opt;
           Ok (dict_set (strip col) v entry)) acc cols = Ok e →
  dict_keys e
  = dict_keys acc
    ++ filter (λ y, y ∉ dict_keys acc) (first_occurrences (strip <$> cols)).
Proof.
  revert acc. induction cols as [|col cols IH]; intros acc; simpl.
  - intros [= <-]. by rewrite filter_nil, app_nil_r.
  - intros (acc' & Hstep & Hrest)%bind_Ok.
    apply bind_Ok in Hstep as (v & _ & [= <-]).
    rewrite (IH _ Hrest), dict_keys_set.
    apply (keys_after_inserts (dict_keys acc) (strip <$> cols) (strip col)).
Qed.

Lemma make_entry_keys (cols : list string) (row : csv_row) (e : pydict string) :
  make_entry cols row = Ok e →
  dict_keys e = first_occurrences (strip <$> cols).
Proof.
  intros He%make_entry_fold_keys. rewrite He. simpl.
  apply filter_all, Forall_forall. intros y _. apply not_elem_of_nil.
Qed.

Lemma read_row_Ok (name : string) (cols : list string)
    (es es' : list (pydict string)) (seen seen' : gset string) (row : csv_row) :
  read_row name cols (es, seen) row = Ok (es', seen') →
  (row_key row = Ok "" ∧ nonempty_key row = None ∧ es' = es ∧ seen' = seen)
  ∨ (∃ key e, nonempty_key row = Some key ∧ key ∉ seen
              ∧ make_entry cols row = Ok e
              ∧ es' = es ++ [e] ∧ seen' = {[ key ]} ∪ seen).
Proof.
  unfold read_row, nonempty_key, row_key.
  destruct (row_getitem row "key" ≫= strip_opt) as [key|err]; simpl; [|done].
  destruct (decide (key = "")) as [->|Hkey].
  - intros [= <- <-]. by left.
  - destruct (decide (key ∈ seen)); [done|].
    intros (e & He & [= <- <-])%bind_Ok. right. by exists key, e.
Qed.

Lemma read_rows_Ok (name : string) (cols : list string) (rows : list csv_row)
    (es es' : list (pydict string)) (seen seen' : gset string) :
  foldM (read_row name cols) (es, seen) rows = Ok (es', seen') →
  ∃ new,
    es' = es ++ new
    ∧ Forall2 (λ e key, ∃ row, row ∈ rows ∧ nonempty_key row = Some key
                               ∧ make_entry cols row = Ok e)
              new (omap nonempty_key rows)
    ∧ NoDup (omap nonempty_key rows)
    ∧ (∀ key, key ∈ omap nonempty_key rows → key ∉ seen)
    ∧ seen' = list_to_set (omap nonempty_key rows) ∪ seen.
Proof.
  revert es seen. induction rows as [|row rows IH]; intros es seen; simpl.
  - intros [= <- <-]. exists []. rewrite app_nil_r.
    repeat split; [constructor|constructor|set_solver|set_solver].
  - intros ([es1 seen1] & Hrow & Hrest)%bind_Ok.
    apply IH in Hrest as (new & -> & Hnew & Hnodup & Hfresh & ->).
    assert (Forall2 (λ e key, ∃ row0, row0 ∈ row :: rows
                                ∧ nonempty_key row0 = Some key
                                ∧ make_entry cols row0 = Ok e)
                    new (omap nonempty_key rows)) as Hnew'.
    { eapply Forall2_impl; [exact Hnew|].
      intros e key (row0 & ? & ? & ?). exists row0. by rewrite elem_of_cons; auto. }
    apply read_row_Ok in Hrow
      as [(_ & Hnone & -> & ->)|(key & e & Hsome & Hkey & He & -> & ->)].
    + rewrite Hnone. by exists new.
    + rewrite Hsome. exists (e :: new). rewrite <- app_assoc. repeat split.
      * constructor; [|done]. exists row. split; [by left|done].
      * constructor; [|done]. intros Hin. apply Hfresh in Hin. set_solver.
      * intros k [->|Hk]%elem_of_cons; [done|]. apply Hfresh in Hk. set_solver.
      * set_solver.
Qed.

Lemma entry_of_key_mono (files files' : list csv_file) (e : pydict string)
    (key : string) :
  files ⊆ files' → entry_of_key files e key → entry_of_key files' e key.
Proof.
  intros Hsub (f & fieldnames & row & Hf & ?). exists f, fieldnames, row.
  split; [by apply Hsub|done].
Qed.

Lemma read_csv_file_Ok (f : csv_file) (es es' : list (pydict string))
    (seen seen' : gset string) :
  read_csv_file (es, seen) f = Ok (es', seen') →
  ∃ new,
    es' = es ++ new
    ∧ Forall2 (entry_of_key [f]) new (data_keys f)
    ∧ NoDup (data_keys f)
    ∧ (∀ key, key ∈ data_keys f → key ∉ seen)
    ∧ seen' = list_to_set (data_keys f) ∪ seen.
Proof.
  unfold read_csv_file, data_keys.
  destruct (DictReader_fieldnames f) as [fieldnames|] eqn:Hfields; [|done].
  destruct (decide ("key" ∉ fieldnames)) as [|Hkey%dec_stable]; [done|].
  intros (new & -> & Hnew & Hrest)%read_rows_Ok. exists new.
  split; [done|]. split; [|done].
  eapply Forall2_impl; [exact Hnew|].
  intros e key (row & ? & ? & ?). exists f, fieldnames, row.
  split; [by left|done].
Qed.

Lemma read_csv_files_Ok (files : list csv_file) (es es' : list (pydict string))
    (seen seen' : gset string) :
  foldM read_csv_file (es, seen) files = Ok (es', seen') →
  ∃ new,
    es' = es ++ new
    ∧ Forall2 (entry_of_key files) new (files ≫= data_keys)
    ∧ NoDup (files ≫= data_keys)
    ∧ (∀ key, key ∈ files ≫= data_keys → key ∉ seen)
    ∧ seen' = list_to_set (files ≫= data_keys) ∪ seen.
Proof.
  revert es seen. induction files as [|f files IH]; intros es seen; simpl.
  - intros [= <- <-]. exists []. rewrite app_nil_r.
    repeat split; [constructor|constructor|set_solver|set_solver].
  - intros ([es1 seen1] & Hfile & Hrest)%bind_Ok.
    apply read_csv_file_Ok in Hfile as (new1 & -> & Hnew1 & Hnodup1 & Hfresh1 & ->).
    apply IH in Hrest as (new2 & -> & Hnew2 & Hnodup2 & Hfresh2 & ->).
    exists (new1 ++ new2). rewrite <- app_assoc. repeat split.
    + apply Forall2_app.
      * eapply Forall2_impl; [exact Hnew1|]. intros e key.
        apply entry_of_key_mono. set_solver.
      * eapply Forall2_impl; [exact Hnew2|]. intros e key.
        apply entry_of_key_mono. set_solver.
    + apply NoDup_app. split; [done|]. split; [|done].
      intros key Hin1 Hin2. apply Hfresh2 in Hin2. set_solver.
    + intros key [Hin|Hin]%elem_of_app; [by apply Hfresh1|].
      apply Hfresh2 in Hin. set_solver.
    + set_solver.
Qed.

Lemma read_csv_entries_Ok (src : source_dir) (entries : list (pydict string)) :
  read_csv_entries src = Ok entries →
  Forall2 (entry_of_key (dir_csv_files src)) entries (source_keys src)
  ∧ NoDup (source_keys src).
Proof.
  unfold read_csv_entries, source_keys.
  destruct (decide (dir_csv_files src = [])); [done|].
  intros ([es seen] & Hfiles & [= <-])%bind_Ok.
  by apply read_csv_files_Ok in Hfiles as (new & -> & ? & ? & _).
Qed.

Lemma strip_key : strip "key" = "key".
Proof. reflexivity. Qed.

Lemma not_ignored (col : string) : col ∉ IGNORED_COLUMNS ↔ col ≠ "comment".
Proof. unfold IGNORED_COLUMNS. by rewrite elem_of_singleton. Qed.

Lemma elem_of_output_columns (k : string) (fieldnames : list string) :
  k ∈ output_columns fieldnames
  ↔ k ≠ "comment" ∧ ∃ col, col ∈ fieldnames ∧ k = strip col.
Proof.
  unfold output_columns.
  rewrite elem_of_first_occurrences, list_elem_of_fmap. split.
  - intros (col & -> & [Hcol ?]%list_elem_of_filter).
    apply not_ignored in Hcol. eauto.
  - intros (Hk & col & Hcol & ->). exists col. split; [done|].
    apply list_elem_of_filter. by rewrite not_ignored.
Qed.

(** What every entry the reader returns looks like: its attributes are the
    columns of a table of the source, [key] among them, [comment] not. *)
Lemma entry_of_key_keys (files : list csv_file) (e : pydict string)
    (key : string) :
  entry_of_key files e key →
  (∃ f fieldnames,
     f ∈ files ∧ DictReader_fieldnames f = Some fieldnames
     ∧ dict_keys e = output_columns fieldnames)
  ∧ NoDup (dict_keys e)
  ∧ "key" ∈ dict_keys e
  ∧ "comment" ∉ dict_keys e.
Proof.
  intros (f & fieldnames & row & Hf & Hfields & Hkey & _ & _ & He).
  apply make_entry_keys in He. fold (output_columns fieldnames) in He.
  rewrite He. split; [by exists f, fieldnames|]. split; [|split].
  - apply NoDup_first_occurrences.
  - apply elem_of_output_columns. split; [done|]. by exists "key".
  - rewrite elem_of_output_columns. by intros [? _].
Qed.

(** ** Rows with an empty key *)

Lemma read_row_empty_key (name : string) (cols : list string)
    (st : list (pydict string) * gset string) (row : csv_row) :
  row_key row = Ok "" → read_row name cols st row = Ok st.
Proof.
  destruct st as [es seen]. unfold read_row, row_key. by intros ->.
Qed.

Lemma read_rows_drop_empty (name : string) (cols fieldnames : list string)
    (rows : list (list string)) (st : list (pydict string) * gset string) :
  foldM (read_row name cols) st
    (DictReader_next fieldnames
       <$> filter (λ row, row ≠ [])
             (filter (λ row, empty_key_row fieldnames row = false) rows))
  = foldM (read_row name cols) st
      (DictReader_next fieldnames <$> filter (λ row, row ≠ []) rows).
Proof.
  revert st. induction rows as [|row rows IH]; intros st; [done|].
  destruct (empty_key_row fieldnames row) eqn:Hempty.
  - rewrite (filter_cons_False _ row rows) by (by rewrite Hempty).
    rewrite IH. destruct (decide (row = [])) as [->|Hrow].
    + by rewrite (filter_cons_False _ [] rows) by (by intros ?).
    + rewrite (filter_cons_True _ row rows) by done.
      rewrite fmap_cons. cbn [foldM].
      rewrite read_row_empty_key; [done|].
      unfold empty_key_row in Hempty. by apply bool_decide_eq_true in Hempty.
  - rewrite (filter_cons_True _ row rows) by done.
    destruct (decide (row = [])) as [->|Hrow].
    + rewrite !(filter_cons_False _ [] _) by (by intros ?). apply IH.
    + rewrite !(filter_cons_True _ row _) by done.
      rewrite !fmap_cons. cbn [foldM].
      destruct (read_row _ _ _ _) as [st'|err]; simpl; [apply IH|done].
Qed.

Lemma read_csv_file_drop_empty (f : csv_file)
    (st : list (pydict string) * gset string) :
  read_csv_file st (drop_empty_key_rows f) = read_csv_file st f.
Proof.
  unfold read_csv_file, drop_empty_key_rows, DictReader_fieldnames,
    DictReader_rows.
  destruct (csv_rows f) as [|fieldnames rows] eqn:Hrows; [by rewrite Hrows|].
  simpl. destruct (decide ("key" ∉ fieldnames)); [done|].
  apply read_rows_drop_empty.
Qed.

Lemma read_csv_file_all_empty (f : csv_file) (fieldnames : list string)
    (rows : list (list string)) (st : list (pydict string) * gset string) :
  csv_rows f = fieldnames :: rows → "key" ∈ fieldnames →
  Forall (λ row, empty_key_row fieldnames row = true) rows →
  read_csv_file st f = Ok st.
Proof.
  intros Hrows Hkey Hall.
  unfold read_csv_file, DictReader_fieldnames, DictReader_rows.
  rewrite Hrows. simpl. rewrite decide_False by (by intros ?). clear Hrows.
  induction Hall as [|row rows Hrow Hall IH]; [done|].
  destruct (decide (row = [])) as [->|Hne].
  - by rewrite (filter_cons_False _ [] rows) by (by intros ?).
  - rewrite (filter_cons_True _ row rows) by done.
    rewrite fmap_cons. cbn [foldM]. rewrite read_row_empty_key; [done|].
    unfold empty_key_row in Hrow. by apply bool_decide_eq_true in Hrow.
Qed.

(** C10: a data row whose key is empty after trimming is skipped: the loop
    body leaves the entries and the seen keys as they were; a table of
    such rows alone reads as nothing, whatever their number; and a source
    reads the same with and without its empty-key rows. *)
Theorem empty_key_rows_skipped :
  (∀ name cols st row,
     row_key row = Ok "" → read_row name cols st row = Ok st)
  ∧ (∀ f fieldnames rows st,
       csv_rows f = fieldnames :: rows → "key" ∈ fieldnames →
       Forall (λ row, empty_key_row fieldnames row = true) rows →
       read_csv_file st f = Ok st)
  ∧ (∀ src,
       read_csv_entries
         {| dir_path := dir_path src;
            dir_name := dir_name src;
            dir_csv_files := drop_empty_key_rows <$> dir_csv_files src |}
       = read_csv_entries src).
Proof.
  split; [exact read_row_empty_key|]. split; [exact read_csv_file_all_empty|].
  intros [path name files]. unfold read_csv_entries. simpl.
  destruct files as [|f files]; [done|].
  rewrite !decide_False by done. f_equal.
  generalize (f :: files) as l. generalize (([], ∅) : list (pydict string) * gset string).
  intros st l. revert st. induction l as [|f' l IH]; intros st; [done|].
  rewrite fmap_cons. cbn [foldM]. rewrite read_csv_file_drop_empty.
  destruct (read_csv_file st f') as [st'|err]; simpl; [apply IH|done].
Qed.

(** ** Duplicate keys *)

Lemma duplicated_key_not_NoDup (src : source_dir) :
  duplicated_key src → ¬ NoDup (source_keys src).
Proof.
  intros (i & j & key & Hlt & Hi & Hj) Hnodup.
  pose proof (NoDup_lookup _ _ _ _ Hnodup Hi Hj). lia.
Qed.

Lemma foldl_insert_Some (kvs : list (string * string)) (d : csv_row)
    (col : string) :
  col ∈ kvs.*1 ∨ (∃ v, d !! col = Some (Some v)) →
  ∃ v, foldl (λ d kv, <[kv.1 := Some kv.2]> d) d kvs !! col = Some (Some v).
Proof.
  revert d. induction kvs as [|[k v] kvs IH]; intros d; simpl.
  - intros [Hin|?]; [by apply elem_of_nil in Hin|done].
  - intros Hcol. apply IH.
    destruct (decide (k = col)) as [->|Hne].
    + right. exists v. apply lookup_insert_eq.
    + destruct Hcol as [Hin|[v' Hv']].
      * apply elem_of_cons in Hin as [?|?]; [congruence|by left].
      * right. exists v'. by rewrite lookup_insert_ne.
Qed.

Lemma DictReader_next_complete (fieldnames row : list string) (col : string) :
  (length fieldnames ≤ length row)%nat → col ∈ fieldnames →
  ∃ v, DictReader_next fieldnames row !! col = Some (Some v).
Proof.
  intros Hlen Hcol. unfold DictReader_next.
  assert (∃ v, foldl (λ d kv, <[kv.1 := Some kv.2]> d) (∅ : csv_row)
                 (zip fieldnames row) !! col = Some (Some v)) as Hd.
  { apply foldl_insert_Some. left. by rewrite fst_zip. }
  destruct (decide (length fieldnames < length row)); [done|].
  destruct (decide (length row < length fieldnames)); [lia|done].
Qed.

Lemma make_entry_complete (cols : list string) (row : csv_row) :
  (∀ col, col ∈ cols → ∃ v, row !! col = Some (Some v)) →
  ∃ e, make_entry cols row = Ok e.
Proof.
  unfold make_entry. generalize ([] : pydict string).
  induction cols as [|col cols IH]; intros acc Hcols; simpl; [eauto|].
  destruct (Hcols col) as [v Hv]; [by left|].
  unfold row_getitem. rewrite Hv. simpl.
  apply IH. intros col' Hcol'. apply Hcols. by right.
Qed.

Lemma read_row_complete (name : string) (cols : list string)
    (st : list (pydict string) * gset string) (row : csv_row) :
  (∃ v, row !! "key" = Some (Some v)) →
  (∀ col, col ∈ cols → ∃ v, row !! col = Some (Some v)) →
  ok_or_duplicate (read_row name cols st row).
Proof.
  intros [v Hv] Hcols. destruct st as [es seen].
  unfold read_row, row_getitem. rewrite Hv. simpl.
  destruct (decide (strip v = "")); [done|].
  destruct (decide (strip v ∈ seen)); [done|].
  by destruct (make_entry_complete cols row Hcols) as [e ->].
Qed.

Lemma foldM_ok_or_duplicate {A S} (body : S → A → result S) (l : list A) (s : S) :
  (∀ s' x, x ∈ l → ok_or_duplicate (body s' x)) →
  ok_or_duplicate (foldM body s l).
Proof.
  revert s. induction l as [|x l IH]; intros s Hbody; simpl; [done|].
  pose proof (Hbody s x ltac:(by left)) as Hx.
  destruct (body s x) as [s'|err]; simpl; [|done].
  apply IH. intros s'' y Hy. apply Hbody. by right.
Qed.

Lemma read_csv_file_complete (f : csv_file)
    (st : list (pydict string) * gset string) :
  complete_table f = true → ok_or_duplicate (read_csv_file st f).
Proof.
  unfold complete_table, read_csv_file, DictReader_fieldnames, DictReader_rows.
  destruct (csv_rows f) as [|fieldnames rows]; [done|]. simpl.
  intros [Hkey%bool_decide_eq_true Hrows]%andb_true_iff.
  rewrite decide_False by (by intros ?).
  apply foldM_ok_or_duplicate. intros st' d Hd.
  apply list_elem_of_fmap in Hd as (row & -> & [Hne Hrow]%list_elem_of_filter).
  assert (length fieldnames ≤ length row)%nat as Hlen.
  { rewrite forallb_forall in Hrows.
    apply list_elem_of_In, Hrows in Hrow.
    apply orb_true_iff in Hrow as [Hnil%bool_decide_eq_true|Hle]; [done|].
    by apply Nat.leb_le. }
  apply read_row_complete.
  - by apply DictReader_next_complete.
  - intros col [_ Hcol]%list_elem_of_filter. by apply DictReader_next_complete.
Qed.

Lemma read_csv_entries_complete (src : source_dir) :
  Forall (λ f, complete_table f = true) (dir_csv_files src) →
  dir_csv_files src ≠ [] →
  ok_or_duplicate (read_csv_entries src).
Proof.
  intros Hcomplete Hfiles. unfold read_csv_entries.
  rewrite decide_False by done.
  pose proof (foldM_ok_or_duplicate read_csv_file (dir_csv_files src) ([], ∅))
    as Hfold.
  destruct (foldM _ _ _) as [st|err]; simpl; [done|].
  apply Hfold. intros st' f Hf. apply read_csv_file_complete.
  by eapply Forall_forall in Hcomplete.
Qed.

(** C6, as the code has it: a source in which the same non-empty trimmed
    key occurs in two data rows, in one table or in two, is never read
    successfully; when every table has a [key] header and every row a field
    for each column, the reader fails with [DuplicateKeyError]. *)
Theorem duplicate_key_rejected (src : source_dir) :
  duplicated_key src →
  is_ok (read_csv_entries src) = false
  ∧ (Forall (λ f, complete_table f = true) (dir_csv_files src) →
     ∃ key f, read_csv_entries src = Err (DuplicateKeyError key f)).
Proof.
  intros Hdup.
  assert (is_ok (read_csv_entries src) = false) as Hfail.
  { destruct (read_csv_entries src) as [entries|err] eqn:Hread; [|done].
    apply read_csv_entries_Ok in Hread as [_ Hnodup].
    by apply duplicated_key_not_NoDup in Hdup. }
  split; [done|]. intros Hcomplete.
  assert (dir_csv_files src ≠ []) as Hfiles.
  { intros Hnil. destruct Hdup as (i & j & key & _ & Hi & _).
    unfold source_keys in Hi. by rewrite Hnil in Hi. }
  pose proof (read_csv_entries_complete src Hcomplete Hfiles) as Hres.
  destruct (read_csv_entries src) as [entries|[]]; try done. eauto.
Qed.

Lemma duplicate_key_rejected_witness :
  is_ok (read_csv_entries src_duplicate_across_files) = false
  ∧ ∃ key f, read_csv_entries src_duplicate_across_files
             = Err (DuplicateKeyError key f).
Proof.
  destruct (duplicate_key_rejected src_duplicate_across_files)
    as [Hfail Hduplicate].
  - exists 0, 2, "k". split; [lia|]. split; reflexivity.
  - split; [exact Hfail|]. apply Hduplicate. by repeat constructor.
Defined.

Example duplicate_across_files_run :
  read_csv_entries src_duplicate_across_files
  = Err (DuplicateKeyError "k" "b.csv").
Proof. reflexivity. Qed.

(** C6 as stated fails: the tables are read in order and the first error
    ends the run, so a table without a [key] header that comes before the
    repeated key yields [SchemaError]. *)
Lemma duplicate_key_behind_schema_error :
  duplicated_key src_schema_then_duplicate
  ∧ read_csv_entries src_schema_then_duplicate = Err (SchemaError "a.csv")
  ∧ ¬ ∃ key f, read_csv_entries src_schema_then_duplicate
               = Err (DuplicateKeyError key f).
Proof.
  split; [|split].
  - exists 0, 1, "k". split; [lia|]. split; reflexivity.
  - reflexivity.
  - by intros (key & f & ?).
Qed.

(** ** Records: [{"id": i, **entry}] *)

Lemma with_id_fold_keys (e : pydict string) (acc : pydict scalar) :
  dict_keys (foldl (λ d kv, dict_set kv.1 (SStr kv.2) d) acc e)
  = dict_keys acc
    ++ filter (λ y, y ∉ dict_keys acc) (first_occurrences (dict_keys e)).
Proof.
  revert acc. induction e as [|[k v] e IH]; intros acc; simpl.
  - by rewrite filter_nil, app_nil_r.
  - rewrite IH, dict_keys_set.
    apply (keys_after_inserts (dict_keys acc) (dict_keys e) k).
Qed.

Lemma with_id_keys (i : nat) (e : pydict string) :
  NoDup (dict_keys e) →
  dict_keys (with_id i e) = "id" :: filter (λ k, k ≠ "id") (dict_keys e).
Proof.
  intros Hnodup. unfold with_id.
  rewrite with_id_fold_keys, first_occurrences_NoDup by done. simpl.
  f_equal. apply list_filter_iff. intros k.
  by rewrite list_elem_of_singleton.
Qed.

Lemma with_id_fold_get (e : pydict string) (acc : pydict scalar) (k : string) :
  NoDup (dict_keys e) →
  dict_get k (foldl (λ d kv, dict_set kv.1 (SStr kv.2) d) acc e)
  = match dict_get k e with
    | Some v => Some (SStr v)
    | None => dict_get k acc
    end.
Proof.
  revert acc. induction e as [|[k1 v1] e IH]; intros acc Hnodup; [done|].
  apply NoDup_cons in Hnodup as [Hk1 Hnodup]. simpl in Hk1. simpl.
  rewrite IH by done. destruct (decide (k1 = k)) as [->|Hne].
  - apply dict_get_None in Hk1. rewrite Hk1, dict_get_set.
    by rewrite decide_True.
  - destruct (dict_get k e); [done|].
    rewrite dict_get_set. by rewrite decide_False.
Qed.

(** The attributes of a record: those of the entry, and the position as
    [id] unless the entry has an [id] attribute of its own. *)
Lemma with_id_get (i : nat) (e : pydict string) (k : string) :
  NoDup (dict_keys e) →
  dict_get k (with_id i e)
  = match dict_get k e with
    | Some v => Some (SStr v)
    | None => if decide (k = "id") then Some (SInt (Z.of_nat i)) else None
    end.
Proof.
  intros Hnodup. unfold with_id. rewrite with_id_fold_get by done.
  destruct (dict_get k e); [done|]. simpl.
  destruct (decide ("id" = k)) as [<-|Hne]; [done|].
  by rewrite decide_False.
Qed.

(** ** The comment column *)



(** ** The text of the output file *)

Lemma string_app_assoc (s t u : string) : (s +:+ t) +:+ u = s +:+ (t +:+ u).
Proof.
  induction s as [|c s IH]; [done|].
  change (String c ((s +:+ t) +:+ u) = String c (s +:+ (t +:+ u))).
  by rewrite IH.
Qed.

Lemma string_app_nil_r (s : string) : s +:+ "" = s.
Proof.
  induction s as [|c s IH]; [done|].
  change (String c (s +:+ "") = String c s). by rewrite IH.
Qed.

Lemma concat_chunks_app (l1 l2 : list string) :
  concat_chunks (l1 ++ l2) = concat_chunks l1 +:+ concat_chunks l2.
Proof.
  induction l1 as [|c l1 IH]; simpl; [done|].
  by rewrite IH, string_app_assoc.
Qed.

Lemma write_chunks (chunks : list string) (text : string) :
  foldl apply_op (Some text) (WriteChunk <$> chunks)
  = Some (text +:+ concat_chunks chunks).
Proof.
  revert text. induction chunks as [|c chunks IH]; intros text; simpl.
  - by rewrite string_app_nil_r.
  - by rewrite IH, string_app_assoc.
Qed.

Lemma write_json_ops_chunks (obj : document) :
  write_json_ops obj
  = OpenTruncate :: (WriteChunk <$> (iterencode obj ++ [newline])).
Proof. unfold write_json_ops. by rewrite fmap_app. Qed.

Lemma json_text_chunks (obj : document) :
  json_text obj = concat_chunks (iterencode obj ++ [newline]).
Proof.
  unfold json_text. rewrite concat_chunks_app. simpl.
  by rewrite string_app_nil_r.
Qed.

(** A write that runs to its end leaves the text of the new document,
    whatever the file held. *)
Lemma write_json_text (obj : document) (content : file) :
  write_json obj content = Some (json_text obj).
Proof.
  unfold write_json. rewrite write_json_ops_chunks.
  change (foldl apply_op (Some "") (WriteChunk <$> (iterencode obj ++ [newline]))
          = Some (json_text obj)).
  by rewrite write_chunks, json_text_chunks.
Qed.

(** ** Keys of entries and records *)

Lemma keys_of_Ok {V} (l : list (pydict V)) (keys : list V) :
  keys_of l = Ok keys ↔ Forall2 (λ e k, dict_get "key" e = Some k) l keys.
Proof.
  unfold keys_of, dict_getitem. revert keys.
  induction l as [|e l IH]; intros keys; simpl.
  - split; [intros [= <-]; constructor|by inversion 1].
  - destruct (dict_get "key" e) as [k|] eqn:Hk; simpl.
    + destruct (mapM _ l) as [ks|err] eqn:Hl; simpl.
      * split.
        -- intros [= <-]. constructor; [done|]. by apply IH.
        -- inversion 1 as [|? k' ? ks' Hk' Hks]; simplify_eq.
           apply IH in Hks. by simplify_eq.
      * split; [done|]. inversion 1 as [|? k' ? ks' Hk' Hks]; simplify_eq.
        by apply IH in Hks.
    + split; [done|]. inversion 1; simplify_eq.
Qed.

Lemma keys_of_ext {V} (a b : list (pydict V)) :
  Forall2 (λ x y, dict_get "key" x = dict_get "key" y) a b →
  keys_of a = keys_of b.
Proof.
  unfold keys_of, dict_getitem. induction 1 as [|x y a b Hxy _ IH]; simpl; [done|].
  by rewrite Hxy, IH.
Qed.

(** The entries the reader returns have distinct attributes, [key] among
    them. *)
Lemma read_csv_entries_wf (src : source_dir) (entries : list (pydict string)) :
  read_csv_entries src = Ok entries →
  Forall (λ e, NoDup (dict_keys e) ∧ "key" ∈ dict_keys e) entries.
Proof.
  intros [Hentries _]%read_csv_entries_Ok. apply Forall_forall. intros e He.
  apply list_elem_of_lookup in He as [i Hi].
  eapply Forall2_lookup_l in Hentries as (key & _ & Hkey); [|exact Hi].
  by apply entry_of_key_keys in Hkey as (_ & ? & ? & _).
Qed.

Lemma keys_of_entries (entries : list (pydict string)) :
  Forall (λ e, NoDup (dict_keys e) ∧ "key" ∈ dict_keys e) entries →
  ∃ keys, keys_of entries = Ok keys
          ∧ keys_of (assign_ids entries) = Ok (SStr <$> keys).
Proof.
  unfold assign_ids. intros Hwf.
  assert (∀ n, ∃ keys,
            Forall2 (λ e k, dict_get "key" e = Some k) entries keys
            ∧ Forall2 (λ e k, dict_get "key" e = Some k)
                      (imap (λ i, with_id (n + i)) entries) (SStr <$> keys))
    as Hkeys.
  { induction Hwf as [|e entries [Hnodup Hkey] _ IH]; intros n.
    - exists []. split; constructor.
    - apply dict_get_is_Some in Hkey as [k Hk].
      destruct (IH (S n)) as (keys & H1 & H2).
      exists (k :: keys). split; [by constructor|].
      rewrite imap_cons, fmap_cons. constructor.
      + by rewrite with_id_get, Hk.
      + erewrite imap_ext; [exact H2|]. intros i x _. simpl. f_equal. lia. }
  destruct (Hkeys 0) as (keys & H1 & H2).
  exists keys. split; by apply keys_of_Ok.
Qed.

(** ** The validator on arbitrary keys *)

Lemma validate_append_only_Ok (existing_keys new_keys : list scalar)
    (name : string) :
  validate_append_only existing_keys new_keys name = Ok ()
  ↔ take (length existing_keys) new_keys = existing_keys.
Proof.
  unfold validate_append_only. split.
  - destruct (decide (_ ≠ ∅)); [by destruct (py_sorted _)|].
    destruct (decide (_ ≠ existing_keys)) as [|Heq]; [done|].
    intros _. by apply dec_stable in Heq.
  - intros Htake. rewrite decide_False.
    + by rewrite decide_False by (by intros ?).
    + intros Hne. apply Hne, missing_empty_iff.
      by apply take_prefix_elem_of.
Qed.

Lemma validate_append_only_same (keys : list scalar) (name : string) :
  validate_append_only keys keys name = Ok ().
Proof. apply validate_append_only_Ok. by rewrite take_ge. Qed.

(** ** Generation *)

Section generation_facts.
Variable json_load : string → result document.

(** What a successful run did. *)
Lemma generate_mapping_Ok (src : source_dir) (output output' : file)
    (schema_ref now : string) (r : report) :
  generate_mapping json_load src output schema_ref now = Ok (output', r) →
  ∃ entries keys existing,
    read_csv_entries src = Ok entries ∧ entries ≠ []
    ∧ keys_of entries = Ok keys
    ∧ read_existing_json json_load output = Ok existing
    ∧ (∀ doc, existing = Some doc →
         ∃ existing_keys,
           keys_of (doc_data doc) = Ok existing_keys
           ∧ validate_append_only existing_keys (SStr <$> keys) (dir_name src)
             = Ok ())
    ∧ ((∃ doc, existing = Some doc
               ∧ list_dict_eqb (doc_data doc) (assign_ids entries) = true
               ∧ output' = output ∧ r = NoChanges (dir_name src))
       ∨ ((∀ doc, existing = Some doc →
             list_dict_eqb (doc_data doc) (assign_ids entries) = false)
          ∧ output' = Some (json_text {| doc_schema := schema_ref;
                                         doc_lastUpdated := now;
                                         doc_data := assign_ids entries |})
          ∧ r = Wrote (dir_name src) (length entries))).
Proof.
  unfold generate_mapping.
  intros (entries & Hread & Hrun)%bind_Ok.
  destruct (decide (entries = [])) as [|Hne]; [done|].
  apply bind_Ok in Hrun as (keys & Hkeys & Hrun).
  apply bind_Ok in Hrun as (existing & Hexisting & Hrun).
  apply bind_Ok in Hrun as ([] & Hvalid & Hrun).
  exists entries, keys, existing. repeat (split; [done|]). split.
  - intros doc ->. apply bind_Ok in Hvalid as (ek & ? & ?). by exists ek.
  - destruct existing as [doc|].
    + destruct (list_dict_eqb _ _) eqn:Heq.
      * injection Hrun as <- <-. left. by exists doc.
      * injection Hrun as <- <-. right. rewrite write_json_text.
        unfold assign_ids. rewrite length_imap.
        split; [by intros ? [= <-]|done].
    + injection Hrun as <- <-. right. rewrite write_json_text.
      unfold assign_ids. rewrite length_imap. by split.
Qed.

(** Without a prior file every non-empty list of entries is written. *)
Lemma generate_mapping_fresh (src : source_dir) (schema_ref now : string)
    (entries : list (pydict string)) :
  read_csv_entries src = Ok entries → entries ≠ [] →
  generate_mapping json_load src None schema_ref now
  = Ok (Some (json_text {| doc_schema := schema_ref;
                           doc_lastUpdated := now;
                           doc_data := assign_ids entries |}),
        Wrote (dir_name src) (length entries)).
Proof.
  intros Hread Hne. unfold generate_mapping. rewrite Hread. simpl.
  rewrite decide_False by done.
  destruct (keys_of_entries entries) as (keys & -> & _);
    [by eapply read_csv_entries_wf|].
  simpl. rewrite write_json_text. unfold assign_ids. by rewrite length_imap.
Qed.

(** A prior file whose data equal the generated data is left alone. *)
Lemma generate_mapping_unchanged (src : source_dir) (text : string)
    (prior : document) (schema_ref now : string)
    (entries : list (pydict string)) :
  json_load text = Ok prior →
  read_csv_entries src = Ok entries → entries ≠ [] →
  list_dict_eqb (doc_data prior) (assign_ids entries) = true →
  generate_mapping json_load src (Some text) schema_ref now
  = Ok (Some text, NoChanges (dir_name src)).
Proof.
  intros Hload Hread Hne Heq. unfold generate_mapping. rewrite Hread. simpl.
  rewrite decide_False by done.
  destruct (keys_of_entries entries) as (keys & -> & Hrecords);
    [by eapply read_csv_entries_wf|].
  simpl. rewrite Hload. simpl.
  assert (keys_of (doc_data prior) = Ok (SStr <$> keys)) as ->.
  { rewrite <- Hrecords. apply keys_of_ext.
    apply list_dict_eqb_true in Heq.
    eapply Forall2_impl; [exact Heq|]. naive_solver. }
  simpl. rewrite validate_append_only_same. simpl. by rewrite Heq.
Qed.

End generation_facts.

(** ** Identifiers *)

Lemma attribute_assign_ids (entries : list (pydict string)) (i : nat)
    (e : pydict string) (k : string) :
  entries !! i = Some e →
  attribute (assign_ids entries) i k = dict_get k (with_id i e).
Proof.
  intros Hi. unfold attribute, assign_ids.
  by rewrite list_lookup_imap, Hi.
Qed.

(** The [id] of a record is its position when its entry has no [id]
    attribute. *)
Lemma assign_ids_id (entries : list (pydict string)) (i : nat) :
  Forall (λ e, NoDup (dict_keys e)) entries →
  Forall (λ e, "id" ∉ dict_keys e) entries →
  i < length entries →
  attribute (assign_ids entries) i "id" = Some (SInt (Z.of_nat i)).
Proof.
  intros Hnodup Hid [e He]%lookup_lt_is_Some.
  rewrite (attribute_assign_ids _ _ e) by done.
  rewrite with_id_get by (by eapply Forall_lookup_1 in Hnodup).
  eapply Forall_lookup_1 in Hid; [|exact He].
  apply dict_get_None in Hid. by rewrite Hid.
Qed.

(** C5 at a table with an [id] column: the value of the column takes the
    place of the position, since [{"id": i, **entry}] lets the entry
    overwrite [id]. *)
Lemma id_column_overrides_id (json_load : string → result document) :
  generate_mapping json_load src_with_id_column None
    "./shiny.schema.json" "2026-01-01T00:00:00Z"
  = Ok (Some (json_text
                {| doc_schema := "./shiny.schema.json";
                   doc_lastUpdated := "2026-01-01T00:00:00Z";
                   doc_data := [ [("id", SStr "7"); ("key", SStr "a")] ] |}),
        Wrote "shiny" 1)
  ∧ attribute (assign_ids [ [("key", "a"); ("id", "7")] ]) 0 "id"
    = Some (SStr "7").
Proof.
  split; [|reflexivity].
  by rewrite (generate_mapping_fresh _ _ _ _ [ [("key", "a"); ("id", "7")] ]).
Qed.

(** Without a prior file and without an [id] column the run writes the
    entries numbered 0, 1, 2, ... in the order they were read. *)
Lemma fresh_initialization (json_load : string → result document)
    (src : source_dir) (schema_ref now : string)
    (entries : list (pydict string)) :
  read_csv_entries src = Ok entries → entries ≠ [] →
  Forall (λ e, "id" ∉ dict_keys e) entries →
  generate_mapping json_load src None schema_ref now
  = Ok (Some (json_text {| doc_schema := schema_ref;
                           doc_lastUpdated := now;
                           doc_data := assign_ids entries |}),
        Wrote (dir_name src) (length entries))
  ∧ ∀ i, i < length entries →
         attribute (assign_ids entries) i "id" = Some (SInt (Z.of_nat i)).
Proof.
  intros Hread Hne Hid. split; [by apply generate_mapping_fresh|].
  intros i Hi. apply assign_ids_id; [|done|done].
  eapply Forall_impl; [by eapply read_csv_entries_wf|]. by intros e [? _].
Qed.

(** X19: when the records of the prior document carry their positions as
    [id] and no entry has an [id] attribute of its own, a run that the
    validator lets pass either leaves the file alone, its data being the
    generated data, or writes the generated data; in the generated data
    every prior key keeps its position and its [id], and the [id] of every
    record is its position, so new keys are numbered from
    [len(existing_keys)] on. *)
Theorem regeneration_keeps_ids (json_load : string → result document)
    (src : source_dir) (text : string) (prior : document)
    (schema_ref now : string) (entries : list (pydict string))
    (output' : file) (r : report) :
  json_load text = Ok prior →
  read_csv_entries src = Ok entries →
  (∀ i, i < length (doc_data prior) →
        attribute (doc_data prior) i "id" = Some (SInt (Z.of_nat i))) →
  Forall (λ e, "id" ∉ dict_keys e) entries →
  generate_mapping json_load src (Some text) schema_ref now = Ok (output', r) →
  ((output' = Some text
    ∧ list_dict_eqb (doc_data prior) (assign_ids entries) = true)
   ∨ output' = Some (json_text {| doc_schema := schema_ref;
                                  doc_lastUpdated := now;
                                  doc_data := assign_ids entries |}))
  ∧ (length (doc_data prior) ≤ length (assign_ids entries))%nat
  ∧ (∀ i, i < length (doc_data prior) →
          is_Some (attribute (doc_data prior) i "key")
          ∧ attribute (assign_ids entries) i "key"
            = attribute (doc_data prior) i "key"
          ∧ attribute (assign_ids entries) i "id"
            = attribute (doc_data prior) i "id")
  ∧ (∀ i, i < length (assign_ids entries) →
          attribute (assign_ids entries) i "id" = Some (SInt (Z.of_nat i))).
Proof.
  intros Hload Hread Hprior Hid Hrun.
  pose proof (read_csv_entries_wf _ _ Hread) as Hwf.
  assert (Forall (λ e, NoDup (dict_keys e)) entries) as Hnodup.
  { eapply Forall_impl; [exact Hwf|]. by intros e [? _]. }
  apply generate_mapping_Ok in Hrun
    as (entries' & keys & existing & Hread' & _ & Hkeys & Hexisting
        & Hvalid & Hout).
  rewrite Hread in Hread'. injection Hread' as <-.
  simpl in Hexisting. rewrite Hload in Hexisting. injection Hexisting as <-.
  destruct (Hvalid prior eq_refl) as (ek & Hek & Htake).
  apply validate_append_only_Ok in Htake.
  apply keys_of_Ok in Hkeys, Hek.
  pose proof (Forall2_length _ _ _ Hkeys) as Hlen_keys.
  pose proof (Forall2_length _ _ _ Hek) as Hlen_ek.
  assert (length (doc_data prior) ≤ length entries)%nat as Hle.
  { rewrite Hlen_ek, Hlen_keys, <- Htake, length_take, length_fmap. lia. }
  assert (length (assign_ids entries) = length entries) as Hlen_new
    by apply length_imap.
  split; [|split; [lia|split]].
  - destruct Hout as [(doc & [= <-] & ? & ? & _)|(_ & ? & _)]; auto.
  - intros i Hi.
    destruct (lookup_lt_is_Some_2 (doc_data prior) i Hi) as [rec Hrec].
    destruct (lookup_lt_is_Some_2 entries i ltac:(lia)) as [e He].
    destruct (Forall2_lookup_l _ _ _ _ _ Hek Hrec) as (v & Hv & Hkey_rec).
    destruct (Forall2_lookup_l _ _ _ _ _ Hkeys He) as (k & Hk & Hkey_e).
    assert (v = SStr k) as ->.
    { rewrite <- Htake, lookup_take_lt in Hv by lia.
      rewrite list_lookup_fmap, Hk in Hv. by injection Hv. }
    assert (attribute (doc_data prior) i "key" = Some (SStr k)) as Hprior_key.
    { unfold attribute. by rewrite Hrec. }
    rewrite Hprior_key. split; [done|]. split.
    + rewrite (attribute_assign_ids _ _ e) by done.
      rewrite with_id_get by (by eapply Forall_lookup_1 in Hnodup).
      by rewrite Hkey_e.
    + rewrite Hprior by done. apply assign_ids_id; [done|done|lia].
  - intros i Hi. apply assign_ids_id; [done|done|lia].
Qed.

Lemma regeneration_keeps_ids_witness :
  attribute (assign_ids [ [("key", "walkSpeed"); ("displayName", "Walk Speed")];
                          [("key", "rawStrength"); ("displayName", "Strength")] ])
            0 "id"
  = attribute [ [("id", SInt 0); ("key", SStr "walkSpeed")] ] 0 "id"
  ∧ attribute (assign_ids [ [("key", "walkSpeed"); ("displayName", "Walk Speed")];
                            [("key", "rawStrength"); ("displayName", "Strength")] ])
              1 "id"
    = Some (SInt 1).
Proof.
  pose (prior := {| doc_schema := "./identification.schema.json";
                    doc_lastUpdated := "2025-01-01T00:00:00Z";
                    doc_data := [ [("id", SInt 0); ("key", SStr "walkSpeed")] ] |}).
  destruct (regeneration_keeps_ids (json_load_of [prior]) src_with_comments
              (json_text prior) prior
              "./identification.schema.json" "2026-01-01T00:00:00Z"
              [ [("key", "walkSpeed"); ("displayName", "Walk Speed")];
                [("key", "rawStrength"); ("displayName", "Strength")] ]
              (Some (json_text (doc_identification "2026-01-01T00:00:00Z")))
              (Wrote "identification" 2))
    as (_ & _ & Hkept & Hdense).
  - vm_compute. reflexivity.
  - reflexivity.
  - intros [|i] Hi; [reflexivity|simpl in Hi; lia].
  - apply (bool_decide_unpack _). vm_compute. exact I.
  - vm_compute. reflexivity.
  - split.
    + apply (Hkept 0). simpl. lia.
    + apply (Hdense 1). simpl. lia.
Defined.

(** C2 at two regenerations that the validator accepts and in which the
    key [a] of the prior document does not keep its [id], against the
    module docstring (existing entries in the JSON keep their IDs and
    order).  In the first the prior record has the [id] 5 and the
    regenerated record the [id] 0, its position.  In the second the prior
    record has the [id] 0, as an earlier run wrote it, and the regenerated
    record has the string [7] of the column named [id], the slip of C5. *)
Lemma regeneration_changes_ids :
  (generate_mapping (json_load_of [doc_single_key 5]) src_single_key
     (Some (json_text (doc_single_key 5)))
     "./shiny.schema.json" "2026-01-01T00:00:00Z"
   = Ok (Some (json_text {| doc_schema := "./shiny.schema.json";
                            doc_lastUpdated := "2026-01-01T00:00:00Z";
                            doc_data := [ [("id", SInt 0); ("key", SStr "a")] ] |}),
         Wrote "shiny" 1)
   ∧ attribute (doc_data (doc_single_key 5)) 0 "id" = Some (SInt 5)
   ∧ attribute (assign_ids [ [("key", "a")] ]) 0 "id" = Some (SInt 0))
  ∧ (generate_mapping (json_load_of [doc_single_key 0]) src_with_id_column
       (Some (json_text (doc_single_key 0)))
       "./shiny.schema.json" "2026-01-01T00:00:00Z"
     = Ok (Some (json_text {| doc_schema := "./shiny.schema.json";
                              doc_lastUpdated := "2026-01-01T00:00:00Z";
                              doc_data := [ [("id", SStr "7"); ("key", SStr "a")] ] |}),
           Wrote "shiny" 1)
     ∧ attribute (doc_data (doc_single_key 0)) 0 "id" = Some (SInt 0)
     ∧ attribute (assign_ids [ [("key", "a"); ("id", "7")] ]) 0 "id"
       = Some (SStr "7")).
Proof. vm_compute. by repeat split. Qed.

(** ** Runs that change nothing *)

(** C9: whether the write is skipped depends on the data alone: when the
    data of the prior document equal the generated data the run ends with
    "no changes" and leaves the file, its [$schema] and [lastUpdated]
    included, as it was, whatever [schema_ref] is; and only then. *)
Theorem unchanged_data_skips_write (json_load : string → result document)
    (src : source_dir) (text : string) (prior : document)
    (schema_ref now : string) (entries : list (pydict string)) :
  json_load text = Ok prior →
  read_csv_entries src = Ok entries →
  entries ≠ [] →
  list_dict_eqb (doc_data prior) (assign_ids entries) = true
  ↔ generate_mapping json_load src (Some text) schema_ref now
    = Ok (Some text, NoChanges (dir_name src)).
Proof.
  intros Hload Hread Hne. split.
  - by apply generate_mapping_unchanged.
  - intros (entries' & keys & existing & Hread' & _ & _ & Hexisting & _ & Hout)
      %generate_mapping_Ok.
    rewrite Hread in Hread'. injection Hread' as <-.
    simpl in Hexisting. rewrite Hload in Hexisting. injection Hexisting as <-.
    by destruct Hout as [(doc & [= <-] & ? & _)|(_ & _ & ?)].
Qed.

Lemma unchanged_data_skips_write_witness :
  list_dict_eqb (doc_data (doc_identification "2025-01-01T00:00:00Z"))
    (assign_ids [ [("key", "walkSpeed"); ("displayName", "Walk Speed")];
                  [("key", "rawStrength"); ("displayName", "Strength")] ])
  = true
  ↔ generate_mapping
      (json_load_of [doc_identification "2025-01-01T00:00:00Z"])
      src_with_comments
      (Some (json_text (doc_identification "2025-01-01T00:00:00Z")))
      "./renamed.schema.json" "2026-01-01T00:00:00Z"
    = Ok (Some (json_text (doc_identification "2025-01-01T00:00:00Z")),
          NoChanges "identification").
Proof.
  apply (unchanged_data_skips_write
           (json_load_of [doc_identification "2025-01-01T00:00:00Z"])
           src_with_comments
           (json_text (doc_identification "2025-01-01T00:00:00Z"))
           (doc_identification "2025-01-01T00:00:00Z")).
  - vm_compute. reflexivity.
  - reflexivity.
  - discriminate.
Defined.

(** C3: after a run that ended well, a second run on the same tables takes
    the "no changes" branch and leaves the output file as the first run
    left it, bytes and all, provided the text the first run wrote reads
    back as the document it dumped. *)
Theorem second_run_writes_nothing (json_load : string → result document)
    (src : source_dir) (output output1 : file) (schema_ref now now' : string)
    (entries : list (pydict string)) (r1 : report) :
  read_csv_entries src = Ok entries →
  reads_back json_load {| doc_schema := schema_ref;
                          doc_lastUpdated := now;
                          doc_data := assign_ids entries |} →
  generate_mapping json_load src output schema_ref now = Ok (output1, r1) →
  generate_mapping json_load src output1 schema_ref now'
  = Ok (output1, NoChanges (dir_name src)).
Proof.
  intros Hread Hback
    (entries' & keys & existing & Hread' & Hne & _ & Hexisting & _ & Hout)
    %generate_mapping_Ok.
  rewrite Hread in Hread'. injection Hread' as <-.
  destruct Hout as [(doc & -> & Heq & -> & _)|(_ & -> & _)].
  - destruct output as [text|]; [|done]. simpl in Hexisting.
    destruct (json_load text) as [doc'|] eqn:Hload; [|done].
    injection Hexisting as ->.
    by eapply generate_mapping_unchanged.
  - eapply generate_mapping_unchanged; [exact Hback|done|done|].
    apply list_dict_eqb_refl.
Qed.

Lemma second_run_writes_nothing_witness :
  generate_mapping
    (json_load_of [doc_identification "2026-01-01T00:00:00Z"])
    src_with_comments
    (Some (json_text (doc_identification "2026-01-01T00:00:00Z")))
    "./identification.schema.json" "2026-01-02T00:00:00Z"
  = Ok (Some (json_text (doc_identification "2026-01-01T00:00:00Z")),
        NoChanges "identification").
Proof.
  apply (second_run_writes_nothing
           (json_load_of [doc_identification "2026-01-01T00:00:00Z"])
           src_with_comments None _
           "./identification.schema.json" "2026-01-01T00:00:00Z" _
           [ [("key", "walkSpeed"); ("displayName", "Walk Speed")];
             [("key", "rawStrength"); ("displayName", "Strength")] ]
           (Wrote "identification" 2)).
  - reflexivity.
  - vm_compute. reflexivity.
  - vm_compute. reflexivity.
Defined.

(** ** Interrupted writes *)

Lemma write_json_interrupted_S (n : nat) (obj : document) (content : file) :
  write_json_interrupted (S n) obj content
  = Some (concat_chunks (take n (iterencode obj ++ [newline]))).
Proof.
  unfold write_json_interrupted. rewrite write_json_ops_chunks.
  change (foldl apply_op (Some "")
            (take n (WriteChunk <$> (iterencode obj ++ [newline])))
          = Some (concat_chunks (take n (iterencode obj ++ [newline])))).
  by rewrite <- fmap_take, write_chunks.
Qed.

(** C4, as the code has it: a write that runs to its end leaves the full
    text of the new document; a failure before the file is opened leaves
    the prior content; a failure later leaves the part of the new text
    written so far, possibly nothing, and none of the prior content. *)
Theorem write_json_truncates_first (obj : document) (content : file) :
  write_json obj content = Some (json_text obj)
  ∧ write_json_interrupted 0 obj content = content
  ∧ ∀ n, 0 < n →
      ∃ written rest,
        write_json_interrupted n obj content = Some written
        ∧ json_text obj = written +:+ rest.
Proof.
  split; [apply write_json_text|]. split; [done|].
  intros [|n] Hn; [lia|].
  exists (concat_chunks (take n (iterencode obj ++ [newline]))),
         (concat_chunks (drop n (iterencode obj ++ [newline]))).
  split; [apply write_json_interrupted_S|].
  by rewrite json_text_chunks, <- concat_chunks_app, take_drop.
Qed.

(** C4 as stated fails: [open(path, "w")] empties the file before the
    first chunk is written, so a failure right after it leaves neither the
    prior document nor the new one; a failure between two chunks leaves a
    torn text. *)
Lemma interrupted_write_loses_prior_file :
  write_json_interrupted 1 (doc_single_key 0)
    (Some (json_text (doc_single_key 5))) = Some ""
  ∧ write_json_interrupted 3 (doc_single_key 0)
      (Some (json_text (doc_single_key 5))) = Some ("{" +:+ newline_indent 1)
  ∧ ¬ (∀ n obj content,
         write_json_interrupted n obj content = content
         ∨ write_json_interrupted n obj content = write_json obj content).
Proof.
  split; [reflexivity|]. split; [reflexivity|].
  intros Hatomic.
  by destruct (Hatomic 1 (doc_single_key 0)
                 (Some (json_text (doc_single_key 5)))) as [Heq|Heq];
    vm_compute in Heq.
Qed.

(** * Further properties of the code *)

(** ** The validator as an order on key lists *)

Lemma validate_append_only_prefix (existing_keys new_keys : list scalar)
    (name : string) :
  validate_append_only existing_keys new_keys name = Ok ()
  ↔ existing_keys `prefix_of` new_keys.
Proof.
  rewrite validate_append_only_Ok. split.
  - intros <-. apply prefix_take.
  - intros [extra ->]. apply take_app_length.
Qed.

(** X1: acceptance by the validator is an order on key lists: every list
    is accepted after itself, and a list accepted after a list that was
    accepted after the existing one is accepted after the existing one;
    the accepted lists are the existing list followed by further keys. *)
Theorem validate_append_only_preorder :
  (∀ keys name, validate_append_only keys keys name = Ok ())
  ∧ (∀ keys1 keys2 keys3 name12 name23 name13,
       validate_append_only keys1 keys2 name12 = Ok () →
       validate_append_only keys2 keys3 name23 = Ok () →
       validate_append_only keys1 keys3 name13 = Ok ())
  ∧ (∀ existing_keys new_keys name,
       validate_append_only existing_keys new_keys name = Ok ()
       ↔ ∃ added, new_keys = existing_keys ++ added).
Proof.
  split; [apply validate_append_only_same|]. split.
  - intros keys1 keys2 keys3 n12 n23 n13.
    rewrite !validate_append_only_prefix. by intros ? ?; etrans.
  - intros existing_keys new_keys name.
    by rewrite validate_append_only_prefix.
Qed.

(** ** Equality of the data *)

Lemma dict_get_Some_elem_of {V} (d : pydict V) (k : string) (v : V) :
  NoDup (dict_keys d) → dict_get k d = Some v ↔ (k, v) ∈ d.
Proof.
  unfold dict_keys. induction d as [|[k0 v0] d IH]; simpl.
  - intros _. split; [done|]. by intros ?%elem_of_nil.
  - intros [Hk0 Hnodup]%NoDup_cons. rewrite elem_of_cons.
    destruct (decide (k0 = k)) as [->|Hne].
    + split; [intros [= ->]; by left|].
      intros [[= ->]|Hin]; [done|]. exfalso. apply Hk0.
      apply list_elem_of_fmap. by exists (k, v).
    + rewrite IH by done. split; [by right|].
      intros [[= ? ?]|?]; [congruence|done].
Qed.

Lemma dict_get_permutation {V} (a b : pydict V) (k : string) :
  NoDup (dict_keys a) → a ≡ₚ b → dict_get k a = dict_get k b.
Proof.
  intros Hnodup Hperm.
  assert (NoDup (dict_keys b)) as Hnodup'.
  { unfold dict_keys in *. by rewrite <- Hperm. }
  destruct (dict_get k a) as [v|] eqn:Ha.
  - apply dict_get_Some_elem_of in Ha; [|done]. rewrite Hperm in Ha.
    symmetry. by apply dict_get_Some_elem_of.
  - apply dict_get_None in Ha. symmetry. apply dict_get_None.
    unfold dict_keys in *. by rewrite <- Hperm.
Qed.

Lemma with_id_NoDup (i : nat) (e : pydict string) :
  NoDup (dict_keys e) → NoDup (dict_keys (with_id i e)).
Proof.
  intros Hnodup. rewrite with_id_keys by done. constructor.
  - rewrite list_elem_of_filter. by intros [? _].
  - by apply NoDup_filter.
Qed.

(** X2: the comparison with the prior data ignores the order of the
    attributes inside a record: when every prior record holds the
    attributes of the generated record at its position, in whatever order,
    the run ends with "no changes" and the file keeps its text. *)
Theorem attribute_order_ignored (json_load : string → result document)
    (src : source_dir) (text : string) (prior : document)
    (schema_ref now : string) (entries : list (pydict string)) :
  json_load text = Ok prior →
  read_csv_entries src = Ok entries →
  entries ≠ [] →
  Forall2 (λ generated stored, generated ≡ₚ stored)
          (assign_ids entries) (doc_data prior) →
  generate_mapping json_load src (Some text) schema_ref now
  = Ok (Some text, NoChanges (dir_name src)).
Proof.
  intros Hload Hread Hne Hperm.
  eapply generate_mapping_unchanged; [done..|].
  apply list_dict_eqb_true.
  pose proof (read_csv_entries_wf _ _ Hread) as Hwf.
  apply Forall2_same_length_lookup.
  split; [symmetry; by eapply Forall2_length|].
  intros i stored generated Hstored Hgen k.
  pose proof (Forall2_lookup_lr _ _ _ _ _ _ Hperm Hgen Hstored) as Hi.
  symmetry. apply dict_get_permutation; [|done].
  unfold assign_ids in Hgen. rewrite list_lookup_imap in Hgen.
  destruct (entries !! i) as [e|] eqn:He; [|done]. injection Hgen as <-.
  apply with_id_NoDup. by eapply Forall_lookup_1 in Hwf as [? _].
Qed.

Lemma attribute_order_ignored_witness :
  generate_mapping
    (json_load_of
       [ {| doc_schema := "./shiny.schema.json";
            doc_lastUpdated := "2025-01-01T00:00:00Z";
            doc_data := [ [("key", SStr "a"); ("id", SInt 0)] ] |} ])
    src_single_key
    (Some (json_text
             {| doc_schema := "./shiny.schema.json";
                doc_lastUpdated := "2025-01-01T00:00:00Z";
                doc_data := [ [("key", SStr "a"); ("id", SInt 0)] ] |}))
    "./shiny.schema.json" "2026-01-01T00:00:00Z"
  = Ok (Some (json_text
                {| doc_schema := "./shiny.schema.json";
                   doc_lastUpdated := "2025-01-01T00:00:00Z";
                   doc_data := [ [("key", SStr "a"); ("id", SInt 0)] ] |}),
        NoChanges "shiny").
Proof.
  apply (attribute_order_ignored _ src_single_key _
           {| doc_schema := "./shiny.schema.json";
              doc_lastUpdated := "2025-01-01T00:00:00Z";
              doc_data := [ [("key", SStr "a"); ("id", SInt 0)] ] |}
           _ _ [ [("key", "a")] ]).
  - vm_compute. reflexivity.
  - reflexivity.
  - discriminate.
  - constructor; [|constructor]. apply Permutation_swap.
Defined.

(** ** What a run accepts and what it rejects *)

Lemma keys_of_app {V} (l1 l2 : list (pydict V)) (keys1 keys2 : list V) :
  keys_of l1 = Ok keys1 → keys_of l2 = Ok keys2 →
  keys_of (l1 ++ l2) = Ok (keys1 ++ keys2).
Proof. rewrite !keys_of_Ok. apply Forall2_app. Qed.

(** X3: with a readable prior document whose records have keys, a run
    ends well, writing or not, exactly when the keys of the source are the
    keys of the prior document followed by further keys; the other
    attributes of the entries play no part in the decision. *)
Theorem generate_mapping_accepts (json_load : string → result document)
    (src : source_dir) (text : string) (prior : document)
    (schema_ref now : string) (entries : list (pydict string))
    (keys : list string) (existing_keys : list scalar) :
  json_load text = Ok prior →
  read_csv_entries src = Ok entries →
  entries ≠ [] →
  keys_of entries = Ok keys →
  keys_of (doc_data prior) = Ok existing_keys →
  is_ok (generate_mapping json_load src (Some text) schema_ref now) = true
  ↔ ∃ added, SStr <$> keys = existing_keys ++ added.
Proof.
  intros Hload Hread Hne Hkeys Hexisting.
  change (∃ added, SStr <$> keys = existing_keys ++ added)
    with (existing_keys `prefix_of` SStr <$> keys).
  rewrite <- (validate_append_only_prefix _ _ (dir_name src)).
  unfold generate_mapping. rewrite Hread. simpl.
  rewrite decide_False by done. rewrite Hkeys. simpl.
  rewrite Hload. simpl. rewrite Hexisting. simpl.
  destruct (validate_append_only _ _ _) as [[]|err]; simpl.
  - by destruct (list_dict_eqb _ _).
  - done.
Qed.

Lemma generate_mapping_accepts_witness :
  is_ok (generate_mapping (json_load_of [doc_single_key 0])
           src_with_comments (Some (json_text (doc_single_key 0)))
           "./shiny.schema.json" "2026-01-01T00:00:00Z") = true
  ↔ ∃ added, SStr <$> ["walkSpeed"; "rawStrength"] = [SStr "a"] ++ added.
Proof.
  apply (generate_mapping_accepts _ _ _ (doc_single_key 0) _ _
           [ [("key", "walkSpeed"); ("displayName", "Walk Speed")];
             [("key", "rawStrength"); ("displayName", "Strength")] ]).
  - vm_compute. reflexivity.
  - reflexivity.
  - discriminate.
  - reflexivity.
  - reflexivity.
Defined.

Lemma read_csv_file_no_keys (f : csv_file) (fieldnames : list string)
    (st : list (pydict string) * gset string) :
  DictReader_fieldnames f = Some fieldnames → "key" ∈ fieldnames →
  Forall (λ row, row_key row = Ok "") (DictReader_rows f) →
  read_csv_file st f = Ok st.
Proof.
  intros Hfields Hkey Hrows. unfold read_csv_file. rewrite Hfields.
  rewrite decide_False by (by intros ?).
  induction Hrows as [|row rows Hrow _ IH]; [done|].
  simpl. by rewrite read_row_empty_key.
Qed.

(** X4: a source whose tables all have a [key] header but no row with a
    key that is not empty is rejected with [EmptySourceError]; the prior
    file is not even read, so the run ends the same whatever the output
    path holds. *)
Theorem empty_source_rejected (json_load : string → result document)
    (src : source_dir) (output : file) (schema_ref now : string) :
  dir_csv_files src ≠ [] →
  Forall (λ f, ∃ fieldnames,
            DictReader_fieldnames f = Some fieldnames ∧ "key" ∈ fieldnames
            ∧ Forall (λ row, row_key row = Ok "") (DictReader_rows f))
         (dir_csv_files src) →
  generate_mapping json_load src output schema_ref now
  = Err (EmptySourceError (dir_name src)).
Proof.
  intros Hfiles Hempty.
  assert (read_csv_entries src = Ok []) as Hread.
  { unfold read_csv_entries. rewrite decide_False by done.
    assert (∀ st, foldM read_csv_file st (dir_csv_files src) = Ok st) as ->;
      [|done].
    induction Hempty as [|f files (fieldnames & ? & ? & ?) _ IH];
      intros st; [done|].
    simpl. erewrite read_csv_file_no_keys by done. simpl.
    destruct files as [|f' files]; [done|]. by apply IH. }
  unfold generate_mapping. by rewrite Hread.
Qed.

Lemma empty_source_rejected_witness :
  generate_mapping (json_load_of [])
    {| dir_path := "mapping/shiny";
       dir_name := "shiny";
       dir_csv_files :=
         [ {| csv_name := "a.csv";
              csv_rows := [["key"; "displayName"]; [" "; "x"]; []] |};
           {| csv_name := "b.csv"; csv_rows := [["key"]] |} ] |}
    (Some "not a document") "./shiny.schema.json" "2026-01-01T00:00:00Z"
  = Err (EmptySourceError "shiny").
Proof.
  apply (empty_source_rejected (json_load_of [])
           {| dir_path := "mapping/shiny";
              dir_name := "shiny";
              dir_csv_files :=
                [ {| csv_name := "a.csv";
                     csv_rows := [["key"; "displayName"]; [" "; "x"]; []] |};
                  {| csv_name := "b.csv"; csv_rows := [["key"]] |} ] |}).
  - discriminate.
  - repeat constructor.
    + exists ["key"; "displayName"]. split; [reflexivity|].
      split; [by left|]. by repeat constructor.
    + exists ["key"]. split; [reflexivity|].
      split; [by left|]. constructor.
Defined.

(** X5: with a source that reads well, a prior file that [json.load]
    cannot read ends the run with the error of [json.load], and a prior
    document with a record without [key] ends it with [KeyError]; nothing
    is written in either case. *)
Theorem unusable_prior_file_stops_run (json_load : string → result document)
    (src : source_dir) (text : string) (schema_ref now : string)
    (entries : list (pydict string)) :
  read_csv_entries src = Ok entries →
  entries ≠ [] →
  (∀ e, json_load text = Err e →
        generate_mapping json_load src (Some text) schema_ref now = Err e)
  ∧ (∀ prior record,
       json_load text = Ok prior → record ∈ doc_data prior →
       "key" ∉ dict_keys record →
       generate_mapping json_load src (Some text) schema_ref now
       = Err (KeyError "key")).
Proof.
  intros Hread Hne.
  destruct (keys_of_entries entries) as (keys & Hkeys & _);
    [by eapply read_csv_entries_wf|].
  split.
  - intros e Hload. unfold generate_mapping. rewrite Hread. simpl.
    rewrite decide_False by done. rewrite Hkeys. simpl. by rewrite Hload.
  - intros prior record Hload Hrecord Hkey.
    unfold generate_mapping. rewrite Hread. simpl.
    rewrite decide_False by done. rewrite Hkeys. simpl. rewrite Hload. simpl.
    assert (keys_of (doc_data prior) = Err (KeyError "key")) as ->; [|done].
    unfold keys_of, dict_getitem.
    induction (doc_data prior) as [|r data IH]; [by apply elem_of_nil in Hrecord|].
    simpl. destruct (dict_get "key" r) as [v|] eqn:Hr; simpl; [|done].
    apply elem_of_cons in Hrecord as [->|Hin].
    + apply dict_get_None in Hkey. congruence.
    + by rewrite IH.
Qed.

Lemma unusable_prior_file_stops_run_witness :
  generate_mapping (json_load_of []) src_single_key (Some "torn")
    "./shiny.schema.json" "2026-01-01T00:00:00Z" = Err JSONDecodeError.
Proof.
  destruct (unusable_prior_file_stops_run (json_load_of []) src_single_key
              "torn" "./shiny.schema.json" "2026-01-01T00:00:00Z"
              [ [("key", "a")] ]) as [Hunreadable _].
  - reflexivity.
  - discriminate.
  - apply Hunreadable. reflexivity.
Defined.

(** X6: rows added after the rows a document was generated from are
    accepted, and the run writes the prior records as they were, followed
    by the records of the added rows, numbered on from the number of prior
    records. *)
Theorem appended_rows_are_appended (json_load : string → result document)
    (src : source_dir) (text : string) (prior : document)
    (schema_ref now : string) (entries added : list (pydict string)) :
  json_load text = Ok prior →
  doc_data prior = assign_ids entries →
  read_csv_entries src = Ok (entries ++ added) →
  added ≠ [] →
  generate_mapping json_load src (Some text) schema_ref now
  = Ok (Some (json_text
                {| doc_schema := schema_ref;
                   doc_lastUpdated := now;
                   doc_data :=
                     doc_data prior
                     ++ imap (λ i, with_id (length entries + i)) added |}),
        Wrote (dir_name src) (length entries + length added)).
Proof.
  intros Hload Hprior Hread Hadded.
  pose proof (read_csv_entries_wf _ _ Hread) as [Hwf1 Hwf2]%Forall_app.
  destruct (keys_of_entries entries Hwf1) as (keys1 & Hkeys1 & Hrecords1).
  destruct (keys_of_entries added Hwf2) as (keys2 & Hkeys2 & _).
  unfold generate_mapping. rewrite Hread. simpl.
  rewrite decide_False by (by destruct entries, added).
  rewrite (keys_of_app _ _ _ _ Hkeys1 Hkeys2). simpl.
  rewrite Hload. simpl. rewrite Hprior, Hrecords1. simpl.
  rewrite fmap_app.
  assert (validate_append_only (SStr <$> keys1)
            ((SStr <$> keys1) ++ (SStr <$> keys2)) (dir_name src) = Ok ()) as ->.
  { apply validate_append_only_prefix. by eexists. }
  simpl.
  assert (list_dict_eqb (assign_ids entries) (assign_ids (entries ++ added))
          = false) as ->.
  { apply not_true_is_false. intros Heq%list_dict_eqb_true%Forall2_length.
    unfold assign_ids in Heq. rewrite !length_imap, length_app in Heq.
    destruct added; [done|]. simpl in Heq. lia. }
  rewrite write_json_text. unfold assign_ids.
  by rewrite length_imap, imap_app, length_app.
Qed.

Lemma appended_rows_are_appended_witness :
  generate_mapping (json_load_of [doc_single_key 0])
    {| dir_path := "mapping/shiny";
       dir_name := "shiny";
       dir_csv_files :=
         [ {| csv_name := "a.csv"; csv_rows := [["key"]; ["a"]; ["b"]] |} ] |}
    (Some (json_text (doc_single_key 0)))
    "./shiny.schema.json" "2026-01-01T00:00:00Z"
  = Ok (Some (json_text
                {| doc_schema := "./shiny.schema.json";
                   doc_lastUpdated := "2026-01-01T00:00:00Z";
                   doc_data := [ [("id", SInt 0); ("key", SStr "a")];
                                 [("id", SInt 1); ("key", SStr "b")] ] |}),
        Wrote "shiny" 2).
Proof.
  apply (appended_rows_are_appended (json_load_of [doc_single_key 0])
           {| dir_path := "mapping/shiny";
              dir_name := "shiny";
              dir_csv_files :=
                [ {| csv_name := "a.csv";
                     csv_rows := [["key"]; ["a"]; ["b"]] |} ] |}
           (json_text (doc_single_key 0)) (doc_single_key 0)
           "./shiny.schema.json" "2026-01-01T00:00:00Z"
           [ [("key", "a")] ] [ [("key", "b")] ]).
  - vm_compute. reflexivity.
  - reflexivity.
  - reflexivity.
  - discriminate.
Defined.

(** ** When the reader succeeds *)

Lemma read_rows_complete_Ok (name : string) (cols : list string)
    (rows : list csv_row) (es : list (pydict string)) (seen : gset string) :
  Forall (λ row, (∃ v, row !! "key" = Some (Some v))
                 ∧ ∀ col, col ∈ cols → ∃ v, row !! col = Some (Some v)) rows →
  NoDup (omap nonempty_key rows) →
  (∀ key, key ∈ omap nonempty_key rows → key ∉ seen) →
  ∃ es', foldM (read_row name cols) (es, seen) rows
         = Ok (es', list_to_set (omap nonempty_key rows) ∪ seen).
Proof.
  intros Hrows. revert es seen.
  induction Hrows as [|row rows [[v Hv] Hcols] _ IH]; intros es seen.
  - intros _ _. exists es. simpl. f_equal. f_equal. set_solver.
  - assert (row_key row = Ok (strip v)) as Hkey.
    { unfold row_key, row_getitem. by rewrite Hv. }
    change (omap nonempty_key (row :: rows))
      with (match nonempty_key row with
            | Some key => key :: omap nonempty_key rows
            | None => omap nonempty_key rows
            end).
    assert (nonempty_key row
            = if decide (strip v = "") then None else Some (strip v)) as ->.
    { unfold nonempty_key. by rewrite Hkey. }
    cbn [foldM]. destruct (decide (strip v = "")) as [Hempty|Hne].
    + intros Hnodup Hfresh. destruct (IH es seen Hnodup Hfresh) as [es' Hes'].
      exists es'. rewrite read_row_empty_key by (by rewrite Hkey, Hempty).
      done.
    + intros [Hnew Hnodup]%NoDup_cons Hfresh.
      destruct (make_entry_complete cols row Hcols) as [e He].
      assert (read_row name cols (es, seen) row
              = Ok (es ++ [e], {[strip v]} ∪ seen)) as ->.
      { unfold read_row. fold (row_key row). rewrite Hkey. simpl.
        rewrite decide_False by done.
        rewrite decide_False by (apply Hfresh; by left).
        by rewrite He. }
      destruct (IH (es ++ [e]) ({[strip v]} ∪ seen) Hnodup) as [es' Hes'].
      * intros key Hin. rewrite not_elem_of_union, not_elem_of_singleton.
        split; [by intros ->|]. apply Hfresh. by right.
      * exists es'. simpl. rewrite Hes'. f_equal. f_equal. set_solver.
Qed.

Lemma read_csv_file_complete_Ok (f : csv_file) (es : list (pydict string))
    (seen : gset string) :
  complete_table f = true →
  NoDup (data_keys f) →
  (∀ key, key ∈ data_keys f → key ∉ seen) →
  ∃ es', read_csv_file (es, seen) f
         = Ok (es', list_to_set (data_keys f) ∪ seen).
Proof.
  unfold complete_table, read_csv_file, data_keys, DictReader_fieldnames,
    DictReader_rows.
  destruct (csv_rows f) as [|fieldnames rows]; [done|]. simpl.
  intros [Hkey%bool_decide_eq_true Hrows]%andb_true_iff.
  rewrite decide_False by (by intros ?).
  apply read_rows_complete_Ok. apply Forall_forall. intros d Hd.
  apply list_elem_of_fmap in Hd as (row & -> & [Hne Hrow]%list_elem_of_filter).
  assert (length fieldnames ≤ length row)%nat as Hlen.
  { rewrite forallb_forall in Hrows.
    apply list_elem_of_In, Hrows in Hrow.
    apply orb_true_iff in Hrow as [Hnil%bool_decide_eq_true|Hle]; [done|].
    by apply Nat.leb_le. }
  split; [by apply DictReader_next_complete|].
  intros col [_ Hcol]%list_elem_of_filter. by apply DictReader_next_complete.
Qed.

Lemma read_csv_files_complete_Ok (files : list csv_file)
    (es : list (pydict string)) (seen : gset string) :
  Forall (λ f, complete_table f = true) files →
  NoDup (files ≫= data_keys) →
  (∀ key, key ∈ files ≫= data_keys → key ∉ seen) →
  ∃ st, foldM read_csv_file (es, seen) files = Ok st.
Proof.
  intros Hfiles. revert es seen.
  induction Hfiles as [|f files Hf _ IH]; intros es seen; [by eexists|].
  simpl. intros (Hnodup1 & Hdisjoint & Hnodup2)%NoDup_app Hfresh.
  destruct (read_csv_file_complete_Ok f es seen Hf Hnodup1) as [es' ->].
  { intros key Hin. apply Hfresh, elem_of_app. by left. }
  simpl. apply IH; [done|]. intros key Hin.
  rewrite not_elem_of_union, elem_of_list_to_set. split.
  - intros Hin1. by apply (Hdisjoint key).
  - apply Hfresh, elem_of_app. by right.
Qed.

(** X7: a source of tables that have a [key] header and, blank lines
    apart, rows with a field for every column is read successfully exactly
    when the non-empty trimmed keys of its rows are distinct, and the
    reader then returns one entry for each of these rows. *)
Theorem complete_source_reads (src : source_dir) :
  dir_csv_files src ≠ [] →
  Forall (λ f, complete_table f = true) (dir_csv_files src) →
  NoDup (source_keys src)
  ↔ ∃ entries, read_csv_entries src = Ok entries
               ∧ length entries = length (source_keys src).
Proof.
  intros Hfiles Hcomplete. split.
  - intros Hnodup.
    destruct (read_csv_files_complete_Ok (dir_csv_files src) [] ∅
                Hcomplete Hnodup) as [[es seen] Hfold]; [set_solver|].
    assert (read_csv_entries src = Ok es) as Hread.
    { unfold read_csv_entries. rewrite decide_False by done.
      by rewrite Hfold. }
    exists es. split; [done|].
    apply read_csv_entries_Ok in Hread as [Hentries _].
    by eapply Forall2_length.
  - intros (entries & Hread & _). by apply read_csv_entries_Ok in Hread as [_ ?].
Qed.

Lemma complete_source_reads_witness :
  NoDup (source_keys src_with_comments)
  ↔ ∃ entries, read_csv_entries src_with_comments = Ok entries
               ∧ length entries = length (source_keys src_with_comments).
Proof.
  apply (complete_source_reads src_with_comments).
  - discriminate.
  - by repeat constructor.
Defined.

(** ** The keys of the entries *)

Lemma make_entry_fold_key (row : csv_row) (cols : list string)
    (acc e : pydict string) :
  (∀ col, col ∈ cols → strip col = "key" → col = "key") →
  foldM (λ entry col,
           v ← row_getitem row col ≫= strip_opt;
           Ok (dict_set (strip col) v entry)) acc cols = Ok e →
  if decide ("key" ∈ cols)
  then ∃ key, row_key row = Ok key ∧ dict_get "key" e = Some key
  else dict_get "key" e = dict_get "key" acc.
Proof.
  revert acc. induction cols as [|col cols IH]; intros acc Honly; cbn [foldM].
  - intros [= <-]. destruct (decide _) as [Hin|]; [|done].
    by apply elem_of_nil in Hin.
  - intros (acc' & Hstep & Hrest)%bind_Ok.
    apply bind_Ok in Hstep as (v & Hv & [= <-]).
    apply IH in Hrest; [|intros col' ?; apply Honly; by right].
    destruct (decide (col = "key")) as [->|Hcol].
    + rewrite decide_True by (by left).
      destruct (decide ("key" ∈ cols)); [done|].
      exists v. split; [done|].
      by rewrite Hrest, strip_key, dict_get_set, decide_True.
    + assert (strip col ≠ "key") as Hstrip.
      { intros Hs. apply Hcol, Honly; [by left|done]. }
      destruct (decide ("key" ∈ cols)) as [Hin|Hnin].
      * rewrite decide_True by (by right). done.
      * rewrite decide_False
          by (rewrite elem_of_cons; intros [?|?]; [congruence|done]).
        by rewrite Hrest, dict_get_set, decide_False.
Qed.

Lemma elem_of_omap_nonempty_key (rows : list csv_row) (key : string) :
  key ∈ omap nonempty_key rows → key ≠ "".
Proof.
  intros (row & _ & Hrow)%list_elem_of_omap. unfold nonempty_key in Hrow.
  destruct (row_key row) as [k|]; [|done].
  destruct (decide (k = "")); [done|]. by injection Hrow as <-.
Qed.

(** X8: when [key] is the only column of every header whose trimmed name
    is [key], the [key] attributes of the entries are the non-empty
    trimmed keys of the data rows, in row order; they are distinct and
    none is empty, and the records carry them unchanged. *)
Theorem entry_keys_are_row_keys (src : source_dir)
    (entries : list (pydict string)) :
  headers key_column_only src →
  read_csv_entries src = Ok entries →
  keys_of entries = Ok (source_keys src)
  ∧ keys_of (assign_ids entries) = Ok (SStr <$> source_keys src)
  ∧ NoDup (source_keys src)
  ∧ "" ∉ source_keys src.
Proof.
  intros Hheaders Hread.
  pose proof (read_csv_entries_wf _ _ Hread) as Hwf.
  apply read_csv_entries_Ok in Hread as [Hentries Hnodup].
  assert (keys_of entries = Ok (source_keys src)) as Hkeys.
  { apply keys_of_Ok. eapply Forall2_impl; [exact Hentries|].
    intros e key (f & fieldnames & row & Hf & Hfields & Hkey & _ & Hrow & He).
    apply make_entry_fold_key in He.
    - rewrite decide_True in He.
      + destruct He as (key' & Hkey' & ->). unfold nonempty_key in Hrow.
        rewrite Hkey' in Hrow. destruct (decide (key' = "")); congruence.
      + apply list_elem_of_filter. by rewrite strip_key, not_ignored.
    - intros col [_ Hcol]%list_elem_of_filter.
      by apply (Hheaders f fieldnames). }
  split; [done|]. split; [|split; [done|]].
  - destruct (keys_of_entries entries Hwf) as (keys & Hkeys' & Hrecords).
    congruence.
  - unfold source_keys. intros (f & Hin & _)%list_elem_of_bind.
    by apply elem_of_omap_nonempty_key in Hin.
Qed.

Lemma entry_keys_are_row_keys_witness :
  keys_of [ [("key", "walkSpeed"); ("displayName", "Walk Speed")];
            [("key", "rawStrength"); ("displayName", "Strength")] ]
  = Ok (source_keys src_with_comments)
  ∧ keys_of (assign_ids
               [ [("key", "walkSpeed"); ("displayName", "Walk Speed")];
                 [("key", "rawStrength"); ("displayName", "Strength")] ])
    = Ok (SStr <$> source_keys src_with_comments)
  ∧ NoDup (source_keys src_with_comments)
  ∧ "" ∉ source_keys src_with_comments.
Proof.
  apply (entry_keys_are_row_keys src_with_comments).
  - intros f fieldnames Hf Hfields col Hcol Hstrip.
    apply elem_of_cons in Hf as [->|Hf]; [|by apply elem_of_nil in Hf].
    injection Hfields as <-.
    repeat (apply elem_of_cons in Hcol as [->|Hcol];
            [by vm_compute in Hstrip|]).
    by apply elem_of_nil in Hcol.
  - reflexivity.
Defined.

(** ** Trimmed names and values *)

Lemma string_app_cons (c : ascii) (s t : string) :
  String c s +:+ t = String c (s +:+ t).
Proof. reflexivity. Qed.

Lemma lstrip_head (s : string) (c : ascii) (t : string) :
  lstrip s = String c t → isspace c = false.
Proof.
  induction s as [|a s IH]; simpl; [done|].
  destruct (isspace a) eqn:Ha; [done|]. by intros [= <- _].
Qed.

Lemma rstrip_last (s t : string) (c : ascii) :
  rstrip s = t +:+ String c "" → isspace c = false.
Proof.
  revert t. induction s as [|a s IH]; intros t; simpl.
  - by destruct t.
  - destruct (isspace a && bool_decide (rstrip s = "")) eqn:Hcond.
    + by destruct t.
    + destruct t as [|b t].
      * intros [= -> Hs]. rewrite Hs in Hcond.
        by rewrite andb_true_r in Hcond.
      * rewrite string_app_cons. intros [= _ Hs]. by eapply IH.
Qed.

Lemma strip_trimmed (s : string) : trimmed (strip s).
Proof.
  unfold strip. split.
  - intros c t Hs. destruct (lstrip s) as [|a u] eqn:Hl; [done|].
    pose proof (lstrip_head _ _ _ Hl) as Ha.
    simpl in Hs. rewrite Ha in Hs. simpl in Hs. by injection Hs as <- _.
  - intros t c. apply rstrip_last.
Qed.

Lemma lstrip_trimmed (s : string) : trimmed s → lstrip s = s.
Proof.
  intros [Hhead _]. destruct s as [|c s]; [done|].
  simpl. by rewrite (Hhead c s).
Qed.

Lemma rstrip_trimmed (s : string) :
  (∀ t c, s = t +:+ String c "" → isspace c = false) → rstrip s = s.
Proof.
  induction s as [|a s IH]; intros Hlast; [done|]. simpl.
  rewrite IH.
  - destruct s as [|b s].
    + by rewrite (Hlast "" a).
    + by rewrite bool_decide_eq_false_2, andb_false_r.
  - intros t c ->. by apply (Hlast (String a t) c).
Qed.

Lemma strip_fixed (s : string) : strip s = s ↔ trimmed s.
Proof.
  split.
  - intros <-. apply strip_trimmed.
  - intros Hs. unfold strip. rewrite lstrip_trimmed by done.
    apply rstrip_trimmed, Hs.
Qed.

Lemma dict_set_Forall {V} (P : string * V → Prop) (k : string) (v : V)
    (d : pydict V) :
  P (k, v) → Forall P d → Forall P (dict_set k v d).
Proof.
  intros Hkv. induction 1 as [|[k0 v0] d H0 Hd IH]; simpl.
  - by repeat constructor.
  - destruct (decide (k0 = k)); by constructor.
Qed.

Lemma make_entry_trimmed (cols : list string) (row : csv_row)
    (e : pydict string) :
  make_entry cols row = Ok e →
  Forall (λ kv, trimmed kv.1 ∧ trimmed kv.2) e.
Proof.
  unfold make_entry.
  assert (Forall (λ kv : string * string, trimmed kv.1 ∧ trimmed kv.2) [])
    as Hacc by constructor.
  revert Hacc. generalize ([] : pydict string).
  induction cols as [|col cols IH]; intros acc Hacc; simpl.
  - by intros [= <-].
  - intros (acc' & Hstep & Hrest)%bind_Ok.
    apply bind_Ok in Hstep as (v & Hv & [= <-]).
    eapply IH; [|exact Hrest].
    apply dict_set_Forall; [|done]. split; [apply strip_trimmed|].
    apply bind_Ok in Hv as ([s|] & _ & Hs); [|done].
    injection Hs as <-. apply strip_trimmed.
Qed.

(** X9: the names and the values of the attributes of every entry the
    reader returns are trimmed: none starts or ends with a whitespace
    character, and [strip] leaves them as they are. *)
Theorem entries_are_trimmed (src : source_dir)
    (entries : list (pydict string)) (e : pydict string) (k v : string) :
  read_csv_entries src = Ok entries →
  e ∈ entries → (k, v) ∈ e →
  trimmed k ∧ trimmed v ∧ strip k = k ∧ strip v = v.
Proof.
  intros [Hentries _]%read_csv_entries_Ok [i Hi]%list_elem_of_lookup Hkv.
  eapply Forall2_lookup_l in Hentries
    as (key & _ & f & fieldnames & row & _ & _ & _ & _ & _ & He); [|exact Hi].
  apply make_entry_trimmed in He.
  eapply Forall_forall in He as [Hk Hv]; [|exact Hkv].
  by rewrite !strip_fixed.
Qed.

Lemma entries_are_trimmed_witness :
  trimmed "displayName" ∧ trimmed "Strength"
  ∧ strip "displayName" = "displayName" ∧ strip "Strength" = "Strength".
Proof.
  apply (entries_are_trimmed src_with_comments
           [ [("key", "walkSpeed"); ("displayName", "Walk Speed")];
             [("key", "rawStrength"); ("displayName", "Strength")] ]
           [("key", "rawStrength"); ("displayName", "Strength")]).
  - reflexivity.
  - apply elem_of_cons. right. apply elem_of_cons. by left.
  - apply elem_of_cons. right. apply elem_of_cons. by left.
Defined.

(** ** Tables the reader cannot use *)

Lemma foldM_app {A S} (body : S → A → result S) (s : S) (l1 l2 : list A) :
  foldM body s (l1 ++ l2) = foldM body s l1 ≫= λ s', foldM body s' l2.
Proof.
  revert s. induction l1 as [|x l1 IH]; intros s; simpl; [done|].
  destruct (body s x) as [s'|e]; simpl; [apply IH|done].
Qed.

(** X10: when the tables before it are read without error, the first
    table that is empty or whose header has no [key] column ends the run
    with a [SchemaError] that names this table, whatever the tables after
    it hold; a directory without tables gives a [NoInputError] that
    carries the path of the directory, as line 85 prints it. *)
Theorem missing_key_header_rejected (path name : string)
    (files1 files2 : list csv_file) (f : csv_file) :
  files1 = []
  ∨ is_ok (read_csv_entries
             {| dir_path := path; dir_name := name; dir_csv_files := files1 |})
    = true →
  (∀ fieldnames, DictReader_fieldnames f = Some fieldnames →
                 "key" ∉ fieldnames) →
  read_csv_entries
    {| dir_path := path; dir_name := name;
       dir_csv_files := files1 ++ f :: files2 |}
  = Err (SchemaError (csv_name f))
  ∧ read_csv_entries
      {| dir_path := path; dir_name := name; dir_csv_files := [] |}
    = Err (NoInputError path).
Proof.
  intros Hbefore Hheader. split; [|done].
  assert (∃ st, foldM read_csv_file ([], ∅) files1 = Ok st) as [st Hst].
  { destruct Hbefore as [->|Hok]; [by eexists|].
    unfold read_csv_entries in Hok. simpl in Hok.
    destruct (decide (files1 = [])); [done|].
    destruct (foldM read_csv_file _ files1) as [st|]; [by exists st|done]. }
  unfold read_csv_entries. simpl.
  rewrite decide_False by (by destruct files1).
  rewrite foldM_app, Hst. simpl.
  assert (read_csv_file st f = Err (SchemaError (csv_name f))) as ->; [|done].
  unfold read_csv_file.
  destruct (DictReader_fieldnames f) as [fieldnames|]; [|done].
  by rewrite decide_True by by apply Hheader.
Qed.

Lemma missing_key_header_rejected_witness :
  read_csv_entries
    {| dir_path := "mapping/shiny";
       dir_name := "shiny";
       dir_csv_files :=
         [ {| csv_name := "a.csv"; csv_rows := [["key"]; ["a"]] |} ]
         ++ {| csv_name := "b.csv"; csv_rows := [["Key"; "name"]; ["b"; "x"]] |}
         :: [ {| csv_name := "c.csv"; csv_rows := [] |} ] |}
  = Err (SchemaError "b.csv")
  ∧ read_csv_entries
      {| dir_path := "mapping/shiny"; dir_name := "shiny";
         dir_csv_files := [] |}
    = Err (NoInputError "mapping/shiny").
Proof.
  apply (missing_key_header_rejected "mapping/shiny" "shiny"
           [ {| csv_name := "a.csv"; csv_rows := [["key"]; ["a"]] |} ]
           [ {| csv_name := "c.csv"; csv_rows := [] |} ]
           {| csv_name := "b.csv"; csv_rows := [["Key"; "name"]; ["b"; "x"]] |}).
  - right. reflexivity.
  - intros fieldnames [= <-] Hin.
    repeat (apply elem_of_cons in Hin as [Hin|Hin]; [discriminate|]).
    by apply elem_of_nil in Hin.
Defined.

(** ** Rows shorter than the header *)

Lemma foldl_insert_fresh (kvs : list (string * string)) (d : csv_row)
    (k : string) :
  k ∉ kvs.*1 →
  foldl (λ d kv, <[kv.1 := Some kv.2]> d) d kvs !! k = d !! k.
Proof.
  revert d. induction kvs as [|[k0 v0] kvs IH]; intros d Hk; [done|].
  simpl. rewrite fmap_cons, not_elem_of_cons in Hk. destruct Hk as [Hne Hk].
  rewrite IH by done. by rewrite lookup_insert_ne.
Qed.

Lemma foldl_insert_lookup (kvs : list (string * string)) (d : csv_row)
    (k v : string) :
  NoDup kvs.*1 → (k, v) ∈ kvs →
  foldl (λ d kv, <[kv.1 := Some kv.2]> d) d kvs !! k = Some (Some v).
Proof.
  revert d. induction kvs as [|[k0 v0] kvs IH]; intros d Hnodup Hin.
  - by apply elem_of_nil in Hin.
  - rewrite fmap_cons in Hnodup. apply NoDup_cons in Hnodup as [Hk0 Hnodup].
    simpl. apply elem_of_cons in Hin as [[= -> ->]|Hin].
    + rewrite foldl_insert_fresh by done. apply lookup_insert_eq.
    + by apply IH.
Qed.

Lemma foldl_insert_None_lookup (keys : list string) (d : csv_row) (k : string) :
  foldl (λ d key, <[key := None]> d) d keys !! k
  = if decide (k ∈ keys) then Some None else d !! k.
Proof.
  revert d. induction keys as [|k0 keys IH]; intros d; cbn [foldl].
  - destruct (decide _) as [Hin|]; [by apply elem_of_nil in Hin|done].
  - rewrite IH. destruct (decide (k ∈ keys)) as [Hin|Hnin].
    + rewrite decide_True; [done|]. by right.
    + destruct (decide (k0 = k)) as [->|Hne].
      * rewrite decide_True by (by left). apply lookup_insert_eq.
      * rewrite decide_False
          by (rewrite elem_of_cons; intros [?|?]; [congruence|done]).
        by rewrite lookup_insert_ne.
Qed.

Lemma fst_zip_take {A B} (l : list A) (k : list B) :
  (zip l k).*1 = take (length k) l.
Proof.
  revert k. induction l as [|x l IH]; intros [|y k]; simpl; [done..|].
  by rewrite IH.
Qed.

(** In a row of the reader a column of a header without repeated names
    holds the field at the position of the column, and [None] when the row
    ends before it. *)
Lemma DictReader_next_lookup (fieldnames row : list string) (i : nat)
    (col : string) :
  NoDup fieldnames → fieldnames !! i = Some col →
  DictReader_next fieldnames row !! col = Some (row !! i).
Proof.
  intros Hnodup Hcol. unfold DictReader_next.
  assert (foldl (λ d kv, <[kv.1 := Some kv.2]> d) (∅ : csv_row)
            (zip fieldnames row) !! col
          = match row !! i with Some v => Some (Some v) | None => None end)
    as Hzip.
  { destruct (row !! i) as [v|] eqn:Hv.
    - apply foldl_insert_lookup.
      + rewrite fst_zip_take. eapply sublist_NoDup; [exact Hnodup|apply sublist_take].
      + apply list_elem_of_lookup. exists i.
        by rewrite lookup_zip_with, Hcol, Hv.
    - rewrite foldl_insert_fresh, lookup_empty; [done|].
      rewrite fst_zip_take. intros (j & Hj & Hlt)%elem_of_take.
      pose proof (NoDup_lookup _ _ _ _ Hnodup Hcol Hj) as <-.
      apply lookup_ge_None in Hv. lia. }
  pose proof (lookup_lt_Some _ _ _ Hcol) as Hi.
  destruct (decide (length fieldnames < length row)).
  { rewrite Hzip. destruct (row !! i) eqn:Hv; [done|].
    apply lookup_ge_None in Hv. lia. }
  destruct (decide (length row < length fieldnames)).
  - rewrite foldl_insert_None_lookup, Hzip.
    destruct (row !! i) as [v|] eqn:Hv.
    + rewrite decide_False; [done|].
      intros (j & Hj)%list_elem_of_lookup. rewrite lookup_drop in Hj.
      pose proof (NoDup_lookup _ _ _ _ Hnodup Hcol Hj) as ->.
      apply lookup_lt_Some in Hv. lia.
    + rewrite decide_True; [done|].
      apply lookup_ge_None in Hv. apply list_elem_of_lookup.
      exists (i - length row). rewrite lookup_drop.
      by replace (length row + (i - length row)) with i by lia.
  - rewrite Hzip. destruct (row !! i) eqn:Hv; [done|].
    apply lookup_ge_None in Hv. lia.
Qed.

Lemma make_entry_short (cols : list string) (row : csv_row) :
  (∀ col, col ∈ cols → is_Some (row !! col)) →
  (∃ col, col ∈ cols ∧ row !! col = Some None) →
  make_entry cols row = Err AttributeError.
Proof.
  unfold make_entry. generalize ([] : pydict string).
  induction cols as [|col cols IH]; intros acc Hall (col' & Hin & Hnone).
  - by apply elem_of_nil in Hin.
  - cbn [foldM].
    assert (∃ x, row_getitem row col = Ok x ∧ row !! col = Some x) as (x & -> & Hx).
    { destruct (Hall col ltac:(by left)) as [x Hx]. exists x.
      unfold row_getitem. by rewrite Hx. }
    destruct x as [v|]; [|done]. simpl. apply IH.
    + intros c Hc. apply Hall. by right.
    + apply elem_of_cons in Hin as [->|Hin]; [congruence|]. by exists col'.
Qed.

(** X11: a row that ends before a column the entries keep never yields an
    entry: with a header without repeated names, the row is skipped when
    its key is empty, reported as a duplicate when its key was seen, and
    otherwise ends the run with the uncaught [AttributeError] of
    [None.strip()]. *)
Theorem short_row_yields_no_entry (name : string)
    (fieldnames row : list string) (i : nat) (col : string)
    (es : list (pydict string)) (seen : gset string) :
  NoDup fieldnames →
  "key" ∈ fieldnames →
  fieldnames !! i = Some col →
  strip col ∉ IGNORED_COLUMNS →
  (length row ≤ i)%nat →
  let d := DictReader_next fieldnames row in
  let r := read_row name
             (filter (λ col, strip col ∉ IGNORED_COLUMNS) fieldnames)
             (es, seen) d in
  (row_key d = Ok "" ∧ r = Ok (es, seen))
  ∨ (∃ key, row_key d = Ok key ∧ key ∈ seen
            ∧ r = Err (DuplicateKeyError key name))
  ∨ r = Err AttributeError.
Proof.
  intros Hnodup Hkey Hcol Hkept Hshort d r. subst r.
  assert (∀ c, c ∈ fieldnames → is_Some (d !! c)) as Hall.
  { intros c (j & Hj)%list_elem_of_lookup. subst d.
    by rewrite (DictReader_next_lookup _ _ j). }
  assert (d !! col = Some None) as Hnone.
  { subst d. rewrite (DictReader_next_lookup _ _ i) by done.
    by rewrite (lookup_ge_None_2 row i). }
  unfold read_row. fold (row_key d).
  destruct (row_key d) as [key|err] eqn:Hrow; simpl.
  - destruct (decide (key = "")) as [->|Hne]; [by left|].
    destruct (decide (key ∈ seen)); [right; left; by exists key|].
    right. right. rewrite make_entry_short; [done| |].
    + intros c [_ Hc]%list_elem_of_filter. by apply Hall.
    + exists col. split; [|done]. apply list_elem_of_filter. split; [done|].
      by eapply list_elem_of_lookup_2.
  - right. right. unfold row_key, row_getitem in Hrow.
    destruct (Hall "key" Hkey) as [[v|] Hv]; rewrite Hv in Hrow; [done|].
    by injection Hrow as <-.
Qed.

Lemma short_row_yields_no_entry_witness :
  (row_key (DictReader_next ["key"; "displayName"] ["a"]) = Ok ""
   ∧ read_row "a.csv" (filter (λ col, strip col ∉ IGNORED_COLUMNS)
                              ["key"; "displayName"])
       ([], ∅) (DictReader_next ["key"; "displayName"] ["a"]) = Ok ([], ∅))
  ∨ (∃ key, row_key (DictReader_next ["key"; "displayName"] ["a"]) = Ok key
            ∧ key ∈ (∅ : gset string)
            ∧ read_row "a.csv" (filter (λ col, strip col ∉ IGNORED_COLUMNS)
                                       ["key"; "displayName"])
                ([], ∅) (DictReader_next ["key"; "displayName"] ["a"])
              = Err (DuplicateKeyError key "a.csv"))
  ∨ read_row "a.csv" (filter (λ col, strip col ∉ IGNORED_COLUMNS)
                             ["key"; "displayName"])
      ([], ∅) (DictReader_next ["key"; "displayName"] ["a"])
    = Err AttributeError.
Proof.
  apply (short_row_yields_no_entry "a.csv" ["key"; "displayName"] ["a"]
           1 "displayName" [] ∅).
  - apply (bool_decide_unpack _). vm_compute. exact I.
  - by left.
  - reflexivity.
  - apply (bool_decide_unpack _). vm_compute. exact I.
  - simpl. lia.
Defined.

(** ** The timestamp *)

Lemma digit_char (k : nat) : ∃ c, digit k = String c "" ∧ c ≠ "+"%char.
Proof.
  unfold digit.
  do 10 (destruct k as [|k]; [by eexists|]). destruct k; by eexists.
Qed.

Lemma two_digits_chars (n : nat) :
  ∃ c1 c2, two_digits n = String c1 (String c2 "")
           ∧ c1 ≠ "+"%char ∧ c2 ≠ "+"%char.
Proof.
  unfold two_digits.
  destruct (digit_char (n / 10 mod 10)) as (c1 & -> & ?).
  destruct (digit_char (n mod 10)) as (c2 & -> & ?).
  by exists c1, c2.
Qed.

Lemma str_replace_from_other (new : string) (c : ascii) (s : string) :
  c ≠ "+"%char →
  str_replace_from "+00:00" new 0 (String c s)
  = String c (str_replace_from "+00:00" new 0 s).
Proof.
  intros Hc. cbn [str_replace_from String.prefix].
  by destruct (ascii_dec "+" c) as [<-|_].
Qed.

(** X12: [now_iso] returns the twenty characters [YYYY-MM-DDTHH:MM:SSZ]:
    the microseconds of the clock leave no trace, and the only [+00:00]
    that is replaced by [Z] is the offset at the end. *)
Theorem now_iso_format (now : datetime) :
  now_iso now
  = four_digits (dt_year now) +:+ "-" +:+ two_digits (dt_month now) +:+ "-"
    +:+ two_digits (dt_day now) +:+ "T" +:+ two_digits (dt_hour now) +:+ ":"
    +:+ two_digits (dt_minute now) +:+ ":" +:+ two_digits (dt_second now)
    +:+ "Z"
  ∧ String.length (now_iso now) = 20.
Proof.
  unfold now_iso, str_replace, isoformat, replace_microsecond_0, four_digits.
  cbn [dt_year dt_month dt_day dt_hour dt_minute dt_second dt_microsecond
       Nat.eqb].
  destruct (two_digits_chars (dt_year now / 100)) as (y1 & y2 & -> & ? & ?).
  destruct (two_digits_chars (dt_year now mod 100)) as (y3 & y4 & -> & ? & ?).
  destruct (two_digits_chars (dt_month now)) as (m1 & m2 & -> & ? & ?).
  destruct (two_digits_chars (dt_day now)) as (d1 & d2 & -> & ? & ?).
  destruct (two_digits_chars (dt_hour now)) as (h1 & h2 & -> & ? & ?).
  destruct (two_digits_chars (dt_minute now)) as (n1 & n2 & -> & ? & ?).
  destruct (two_digits_chars (dt_second now)) as (s1 & s2 & -> & ? & ?).
  cbv beta iota fix delta [String.append].
  rewrite !str_replace_from_other by done.
  split; reflexivity.
Qed.

(** ** Main *)

Lemma set_content_lookup (path : string) (content : file)
    (fs : gmap string string) :
  set_content path content fs !! path = content.
Proof.
  destruct content as [text|]; simpl.
  - apply lookup_insert_eq.
  - apply lookup_delete_eq.
Qed.

Lemma set_content_lookup_ne (path path' : string) (content : file)
    (fs : gmap string string) :
  path ≠ path' → set_content path content fs !! path' = fs !! path'.
Proof.
  intros Hne. destruct content as [text|]; simpl.
  - by apply lookup_insert_ne.
  - by apply lookup_delete_ne.
Qed.

Lemma set_content_same (path : string) (content : file)
    (fs : gmap string string) :
  fs !! path = content → set_content path content fs = fs.
Proof.
  intros <-. destruct (fs !! path) as [text|] eqn:Hpath; simpl.
  - by apply insert_id.
  - by apply delete_id.
Qed.

Section main_facts.
Variable json_load : string → result document.
Variable dirs : gmap string (list csv_file).

(** [main] in terms of the runs of the two mappings. *)
Lemma main_unfold (clock : nat → datetime) (fs : gmap string string) :
  main json_load dirs clock fs
  = match generate_mapping json_load (source_at dirs "mapping/identification")
            (fs !! "mapping/identification.json")
            "./identification.schema.json" (now_iso (clock 0)) with
    | Err e => (fs, Err e)
    | Ok (content1, r1) =>
        match generate_mapping json_load (source_at dirs "mapping/shiny")
                (fs !! "mapping/shiny.json") "./shiny.schema.json"
                (now_iso (clock 1)) with
        | Err e => (set_content "mapping/identification.json" content1 fs, Err e)
        | Ok (content2, r2) =>
            (set_content "mapping/shiny.json" content2
               (set_content "mapping/identification.json" content1 fs),
             Ok [r1; r2])
        end
    end.
Proof.
  unfold main.
  change MAPPINGS
    with [ ("mapping/identification", "mapping/identification.json",
            "./identification.schema.json");
           ("mapping/shiny", "mapping/shiny.json", "./shiny.schema.json") ].
  cbn [run_mappings].
  destruct (generate_mapping _ (source_at dirs "mapping/identification") _ _ _)
    as [[content1 r1]|e1]; [|done].
  rewrite set_content_lookup_ne by done.
  by destruct (generate_mapping _ (source_at dirs "mapping/shiny") _ _ _)
    as [[content2 r2]|e2].
Qed.

(** X13: what a run of [main] that ended well leaves behind.  Both source
    directories were read, and there are two reports, in the order of
    [MAPPINGS].  For each mapping, either the report is "no changes", the
    output file is as it was, and it held a text that loads as a document
    whose data equal the generated data; or the report counts the entries
    and the output file holds the dump of the document made of the schema
    reference of the mapping, the time taken during that mapping and the
    generated data.  No other path has changed. *)
Theorem main_leaves_generated_documents (clock : nat → datetime)
    (fs fs1 : gmap string string) (rs : list report) :
  main json_load dirs clock fs = (fs1, Ok rs) →
  ∃ entries1 entries2 r1 r2,
    read_csv_entries (source_at dirs "mapping/identification") = Ok entries1
    ∧ read_csv_entries (source_at dirs "mapping/shiny") = Ok entries2
    ∧ rs = [r1; r2]
    ∧ ((r1 = NoChanges "identification"
        ∧ fs1 !! "mapping/identification.json"
          = fs !! "mapping/identification.json"
        ∧ ∃ text doc,
            fs !! "mapping/identification.json" = Some text
            ∧ json_load text = Ok doc
            ∧ list_dict_eqb (doc_data doc) (assign_ids entries1) = true)
       ∨ (r1 = Wrote "identification" (length entries1)
          ∧ fs1 !! "mapping/identification.json"
            = Some (json_text {| doc_schema := "./identification.schema.json";
                                 doc_lastUpdated := now_iso (clock 0);
                                 doc_data := assign_ids entries1 |})))
    ∧ ((r2 = NoChanges "shiny"
        ∧ fs1 !! "mapping/shiny.json" = fs !! "mapping/shiny.json"
        ∧ ∃ text doc,
            fs !! "mapping/shiny.json" = Some text
            ∧ json_load text = Ok doc
            ∧ list_dict_eqb (doc_data doc) (assign_ids entries2) = true)
       ∨ (r2 = Wrote "shiny" (length entries2)
          ∧ fs1 !! "mapping/shiny.json"
            = Some (json_text {| doc_schema := "./shiny.schema.json";
                                 doc_lastUpdated := now_iso (clock 1);
                                 doc_data := assign_ids entries2 |})))
    ∧ (∀ path, path ∉ output_paths MAPPINGS → fs1 !! path = fs !! path).
Proof.
  intros Hmain. rewrite main_unfold in Hmain.
  destruct (generate_mapping json_load (source_at dirs "mapping/identification")
              (fs !! "mapping/identification.json") _ _)
    as [[content1 r1]|e1] eqn:Hrun1; [|congruence].
  destruct (generate_mapping json_load (source_at dirs "mapping/shiny")
              (fs !! "mapping/shiny.json") _ _)
    as [[content2 r2]|e2] eqn:Hrun2; [|congruence].
  injection Hmain as <- <-.
  apply generate_mapping_Ok in Hrun1
    as (entries1 & _ & existing1 & Hread1 & _ & _ & Hexisting1 & _ & Hout1).
  apply generate_mapping_Ok in Hrun2
    as (entries2 & _ & existing2 & Hread2 & _ & _ & Hexisting2 & _ & Hout2).
  exists entries1, entries2, r1, r2.
  split; [done|]. split; [done|]. split; [done|].
  rewrite set_content_lookup_ne by done. rewrite !set_content_lookup.
  split; [|split].
  - destruct Hout1 as [(doc & -> & Heq & -> & ->)|(_ & -> & ->)].
    + left. split; [done|]. split; [done|].
      destruct (fs !! "mapping/identification.json") as [text|]; [|done].
      simpl in Hexisting1.
      destruct (json_load text) as [doc'|] eqn:Hload; [|done].
      injection Hexisting1 as ->. by exists text, doc.
    + by right.
  - destruct Hout2 as [(doc & -> & Heq & -> & ->)|(_ & -> & ->)].
    + left. split; [done|]. split; [done|].
      destruct (fs !! "mapping/shiny.json") as [text|]; [|done].
      simpl in Hexisting2.
      destruct (json_load text) as [doc'|] eqn:Hload; [|done].
      injection Hexisting2 as ->. by exists text, doc.
    + by right.
  - intros path Hpath. unfold output_paths, MAPPINGS in Hpath. simpl in Hpath.
    rewrite !not_elem_of_cons in Hpath. destruct Hpath as (Hne1 & Hne2 & _).
    by rewrite !set_content_lookup_ne by done.
Qed.

(** A second run of one mapping, for [main]. *)
Lemma generate_mapping_again (src : source_dir) (output output1 : file)
    (schema_ref now now' : string) (entries : list (pydict string))
    (r1 : report) :
  read_csv_entries src = Ok entries →
  reads_back json_load {| doc_schema := schema_ref;
                          doc_lastUpdated := now;
                          doc_data := assign_ids entries |} →
  generate_mapping json_load src output schema_ref now = Ok (output1, r1) →
  generate_mapping json_load src output1 schema_ref now'
  = Ok (output1, NoChanges (dir_name src)).
Proof.
  intros Hread Hback Hrun.
  apply generate_mapping_Ok in Hrun
    as (entries' & keys & existing & Hread' & Hne & _ & Hexisting & _ & Hout).
  rewrite Hread in Hread'. injection Hread' as <-.
  destruct Hout as [(doc & -> & Heq & -> & _)|(_ & -> & _)].
  - destruct output as [text|]; [|done]. simpl in Hexisting.
    destruct (json_load text) as [doc'|] eqn:Hload; [|done].
    injection Hexisting as ->.
    by eapply generate_mapping_unchanged.
  - eapply generate_mapping_unchanged; [exact Hback|done|done|].
    apply list_dict_eqb_refl.
Qed.

(** X15: after a run of [main] that ended well, a second run over the
    same directories reports "no changes" for both mappings and leaves
    every file as it is, provided the texts the first run wrote read back
    as the documents it dumped. *)
Theorem main_twice (clock clock' : nat → datetime)
    (fs fs1 : gmap string string) (rs : list report)
    (entries1 entries2 : list (pydict string)) :
  read_csv_entries (source_at dirs "mapping/identification") = Ok entries1 →
  read_csv_entries (source_at dirs "mapping/shiny") = Ok entries2 →
  reads_back json_load {| doc_schema := "./identification.schema.json";
                          doc_lastUpdated := now_iso (clock 0);
                          doc_data := assign_ids entries1 |} →
  reads_back json_load {| doc_schema := "./shiny.schema.json";
                          doc_lastUpdated := now_iso (clock 1);
                          doc_data := assign_ids entries2 |} →
  main json_load dirs clock fs = (fs1, Ok rs) →
  main json_load dirs clock' fs1
  = (fs1, Ok [NoChanges "identification"; NoChanges "shiny"]).
Proof.
  intros Hread1 Hread2 Hback1 Hback2 Hmain. rewrite main_unfold in Hmain.
  destruct (generate_mapping json_load (source_at dirs "mapping/identification")
              (fs !! "mapping/identification.json") _ _)
    as [[content1 r1]|e1] eqn:Hrun1; [|congruence].
  destruct (generate_mapping json_load (source_at dirs "mapping/shiny")
              (fs !! "mapping/shiny.json") _ _)
    as [[content2 r2]|e2] eqn:Hrun2; [|congruence].
  injection Hmain as <- _.
  set (fs1 := set_content "mapping/shiny.json" content2
                (set_content "mapping/identification.json" content1 fs)).
  assert (fs1 !! "mapping/identification.json" = content1) as Hout1.
  { subst fs1. rewrite set_content_lookup_ne by done.
    apply set_content_lookup. }
  assert (fs1 !! "mapping/shiny.json" = content2) as Hout2
    by apply set_content_lookup.
  rewrite main_unfold, Hout1, Hout2.
  rewrite (generate_mapping_again _ _ _ _ _ _ _ _ Hread1 Hback1 Hrun1).
  rewrite (generate_mapping_again _ _ _ _ _ _ _ _ Hread2 Hback2 Hrun2).
  by rewrite (set_content_same _ _ fs1 Hout1), (set_content_same _ _ fs1 Hout2).
Qed.

End main_facts.

Lemma main_leaves_generated_documents_witness :
  ∃ entries1 entries2 r1 r2,
    read_csv_entries (source_at sample_dirs "mapping/identification")
    = Ok entries1
    ∧ read_csv_entries (source_at sample_dirs "mapping/shiny") = Ok entries2
    ∧ [NoChanges "identification"; Wrote "shiny" 1] = [r1; r2]
    ∧ ((r1 = NoChanges "identification"
        ∧ sample_files_after !! "mapping/identification.json"
          = sample_files_before !! "mapping/identification.json"
        ∧ ∃ text doc,
            sample_files_before !! "mapping/identification.json"
            = Some text
            ∧ json_load_of [doc_identification "2025-01-01T00:00:00Z"] text
              = Ok doc
            ∧ list_dict_eqb (doc_data doc) (assign_ids entries1) = true)
       ∨ (r1 = Wrote "identification" (length entries1)
          ∧ sample_files_after !! "mapping/identification.json"
            = Some (json_text {| doc_schema := "./identification.schema.json";
                                 doc_lastUpdated := now_iso (sample_clock 0);
                                 doc_data := assign_ids entries1 |})))
    ∧ ((r2 = NoChanges "shiny"
        ∧ sample_files_after !! "mapping/shiny.json"
          = sample_files_before !! "mapping/shiny.json"
        ∧ ∃ text doc,
            sample_files_before !! "mapping/shiny.json"
            = Some text
            ∧ json_load_of [doc_identification "2025-01-01T00:00:00Z"] text
              = Ok doc
            ∧ list_dict_eqb (doc_data doc) (assign_ids entries2) = true)
       ∨ (r2 = Wrote "shiny" (length entries2)
          ∧ sample_files_after !! "mapping/shiny.json"
            = Some (json_text {| doc_schema := "./shiny.schema.json";
                                 doc_lastUpdated := now_iso (sample_clock 1);
                                 doc_data := assign_ids entries2 |})))
    ∧ (∀ path, path ∉ output_paths MAPPINGS →
         sample_files_after !! path
         = sample_files_before !! path).
Proof.
  apply (main_leaves_generated_documents
           (json_load_of [doc_identification "2025-01-01T00:00:00Z"])
           sample_dirs sample_clock
           sample_files_before).
  vm_compute. reflexivity.
Defined.

Lemma main_twice_witness :
  main (json_load_of [doc_identification "2026-01-01T00:00:00Z";
                      doc_shiny "2026-01-01T00:00:01Z"])
    sample_dirs (λ n, sample_clock (n + 5))
    {[ "mapping/identification.json" :=
         json_text (doc_identification "2026-01-01T00:00:00Z");
       "mapping/shiny.json" := json_text (doc_shiny "2026-01-01T00:00:01Z") ]}
  = ({[ "mapping/identification.json" :=
          json_text (doc_identification "2026-01-01T00:00:00Z");
        "mapping/shiny.json" := json_text (doc_shiny "2026-01-01T00:00:01Z") ]},
     Ok [NoChanges "identification"; NoChanges "shiny"]).
Proof.
  apply (main_twice
           (json_load_of [doc_identification "2026-01-01T00:00:00Z";
                          doc_shiny "2026-01-01T00:00:01Z"])
           sample_dirs sample_clock (λ n, sample_clock (n + 5)) ∅ _
           [Wrote "identification" 2; Wrote "shiny" 1]
           [ [("key", "walkSpeed"); ("displayName", "Walk Speed")];
             [("key", "rawStrength"); ("displayName", "Strength")] ]
           [ [("key", "a")] ]).
  - vm_compute. reflexivity.
  - vm_compute. reflexivity.
  - vm_compute. reflexivity.
  - vm_compute. reflexivity.
  - vm_compute. reflexivity.
Defined.

(** ** What a record carries *)

(** X16: every attribute of an entry other than [id] is carried into the
    record at its position with the same value, as a string, and the
    record has no attribute besides those of the entry and [id]; the data
    array has one record for each entry. *)
Theorem attributes_carried_through (src : source_dir)
    (entries : list (pydict string)) (i : nat) (e : pydict string)
    (k : string) :
  read_csv_entries src = Ok entries →
  entries !! i = Some e →
  k ≠ "id" →
  attribute (assign_ids entries) i k = SStr <$> dict_get k e
  ∧ length (assign_ids entries) = length entries.
Proof.
  intros Hwf%read_csv_entries_wf Hi Hk.
  split; [|apply length_imap].
  rewrite (attribute_assign_ids _ _ e) by done.
  rewrite with_id_get by (by eapply Forall_lookup_1 in Hwf as [? _]).
  destruct (dict_get k e); [done|]. by rewrite decide_False.
Qed.

Lemma attributes_carried_through_witness :
  attribute (assign_ids
               [ [("key", "walkSpeed"); ("displayName", "Walk Speed")];
                 [("key", "rawStrength"); ("displayName", "Strength")] ])
            1 "displayName"
  = SStr <$> dict_get "displayName"
               [("key", "rawStrength"); ("displayName", "Strength")]
  ∧ length (assign_ids
              [ [("key", "walkSpeed"); ("displayName", "Walk Speed")];
                [("key", "rawStrength"); ("displayName", "Strength")] ])
    = length [ [("key", "walkSpeed"); ("displayName", "Walk Speed")];
               [("key", "rawStrength"); ("displayName", "Strength")] ].
Proof.
  apply (attributes_carried_through src_with_comments).
  - reflexivity.
  - reflexivity.
  - discriminate.
Defined.

(** X17: a run that writes reports as many entries as the source has
    data rows with a non-empty key, under the name of the source
    directory, and the file it leaves is the text of a document with that
    many records; a run that does not write leaves the file as it was. *)
Theorem report_counts_rows (json_load : string → result document)
    (src : source_dir) (output output' : file) (schema_ref now : string)
    (r : report) :
  generate_mapping json_load src output schema_ref now = Ok (output', r) →
  (r = NoChanges (dir_name src) ∧ output' = output)
  ∨ (r = Wrote (dir_name src) (length (source_keys src))
     ∧ ∃ data, length data = length (source_keys src)
               ∧ output' = Some (json_text {| doc_schema := schema_ref;
                                              doc_lastUpdated := now;
                                              doc_data := data |})).
Proof.
  intros (entries & keys & existing & Hread & _ & _ & _ & _ & Hout)
    %generate_mapping_Ok.
  apply read_csv_entries_Ok in Hread as [Hlen%Forall2_length _].
  destruct Hout as [(doc & _ & _ & -> & ->)|(_ & -> & ->)]; [by left|].
  right. rewrite Hlen. split; [done|]. exists (assign_ids entries).
  split; [|done]. unfold assign_ids. by rewrite length_imap.
Qed.

Lemma report_counts_rows_witness :
  (Wrote "identification" 2 = NoChanges (dir_name src_with_comments)
   ∧ Some (json_text (doc_identification "2026-01-01T00:00:00Z")) = None)
  ∨ (Wrote "identification" 2
     = Wrote (dir_name src_with_comments) (length (source_keys src_with_comments))
     ∧ ∃ data, length data = length (source_keys src_with_comments)
               ∧ Some (json_text (doc_identification "2026-01-01T00:00:00Z"))
                 = Some (json_text
                           {| doc_schema := "./identification.schema.json";
                              doc_lastUpdated := "2026-01-01T00:00:00Z";
                              doc_data := data |})).
Proof.
  apply (report_counts_rows (json_load_of []) src_with_comments None).
  vm_compute. reflexivity.
Defined.

(** ** Keys that are not strings *)

(** X18: when the keys missing from the new list include an integer and a
    string, [sorted(missing)] cannot order them: the validator ends with
    the uncaught [TypeError] and prints no diagnostic. *)
Theorem mixed_missing_keys_raise (existing_keys new_keys : list scalar)
    (name : string) (n : Z) (s : string) :
  SInt n ∈ existing_keys → SStr s ∈ existing_keys →
  SInt n ∉ new_keys → SStr s ∉ new_keys →
  validate_append_only existing_keys new_keys name = Err TypeError.
Proof.
  intros Hn Hs Hn' Hs'. unfold validate_append_only.
  set (missing := list_to_set existing_keys ∖ list_to_set new_keys : gset scalar).
  assert (SInt n ∈ missing) as Hmn by set_solver.
  assert (SStr s ∈ missing) as Hms by set_solver.
  rewrite decide_True by set_solver.
  unfold py_sorted.
  assert (forallb is_int (elements missing) = false) as ->.
  { apply not_true_is_false. rewrite forallb_forall. intros Hall.
    by specialize (Hall (SStr s)
                     ltac:(by apply list_elem_of_In, elem_of_elements)). }
  assert (forallb is_str (elements missing) = false) as ->; [|done].
  apply not_true_is_false. rewrite forallb_forall. intros Hall.
  by specialize (Hall (SInt n)
                   ltac:(by apply list_elem_of_In, elem_of_elements)).
Qed.

Lemma mixed_missing_keys_raise_witness :
  validate_append_only [SInt 3; SStr "a"; SStr "b"] [SStr "b"] "shiny"
  = Err TypeError.
Proof.
  apply (mixed_missing_keys_raise _ _ "shiny" 3 "a").
  - by left.
  - right. by left.
  - intros Hin. repeat (apply elem_of_cons in Hin as [Hin|Hin]; [discriminate|]).
    by apply elem_of_nil in Hin.
  - intros Hin. repeat (apply elem_of_cons in Hin as [Hin|Hin]; [discriminate|]).
    by apply elem_of_nil in Hin.
Defined.
